(** * Candlestick preprocessing

    A shallow embedding of [preprocessing.py]: the integrity check
    ([assert_integrity]), the cleaning step ([quick_clean]), the compact
    dtype profile ([set_dtypes_compressed]), the minute gap filler
    ([addMissingMinutes]) and the conversion pipeline
    ([write_raw_to_parquet]), followed by the properties proved about them.

    Conventions of the embedding.
    - A pandas frame is the list of its rows in positional order; a row is a
      record with one field per column.
    - A cell of an integer column read from CSV is an [option Z], [None]
      being the missing value (NaN); a cell of a float column is a
      [spec_float], [S754_nan] being the missing value.  Where the dtype of an
      integer column decides what the code does (the conversion pipeline), the
      frame carries it ([Frame]): [int64] for a column of 64-bit integers,
      [float64] for a column that had a missing cell when it was read.
    - What the source leaves to the installed pandas and numpy is a
      parameter ([Pandas]); the properties hold for every such library.
    - A timestamp is a number of milliseconds since the epoch, [None] being
      NaT; [timedelta(minutes=1)] is [60000].
    - A Python exception is a constructor of [exn]; a function that can raise
      returns an [outcome]. *)

From Equations Require Import Equations.
From Stdlib Require Import String Ascii.
From Stdlib Require Import ZArith List Lia Bool.
From Stdlib Require Import Floats.SpecFloat.
Import ListNotations.
Open Scope Z_scope.

(** ** Values *)

(** A value stored in a row dictionary: a Python [int] or a Python [float]. *)
Inductive pyval :=
| PyInt (n : Z)
| PyFloat (x : spec_float).

(** [pd.Timestamp]: milliseconds since the epoch, or NaT. *)
Definition Timestamp := option Z.
Definition NaT : Timestamp := None.

(** [timedelta(minutes=1)]. *)
Definition minute : Z := 60000.

(** [a + d] for a timestamp [a] and a duration [d]; NaT absorbs. *)
Definition ts_add (a : Timestamp) (d : Z) : Timestamp :=
  match a with
  | Some x => Some (x + d)
  | None => None
  end.

(** [a - b > d]; every comparison with NaT is false. *)
Definition ts_diff_gt (a b : Timestamp) (d : Z) : bool :=
  match a, b with
  | Some x, Some y => d <? x - y
  | _, _ => false
  end.

(** [a < b]; every comparison with NaT is false. *)
Definition ts_lt (a b : Timestamp) : bool :=
  match a, b with
  | Some x, Some y => x <? y
  | _, _ => false
  end.

(** ** Exceptions and outcomes *)

(** Which of the two [assert] statements of [assert_integrity] failed. *)
Inductive integrity_check :=
| EmptyRow            (* line 56: a row with every cell missing *)
| DuplicateTimestamp. (* line 57: a repeated [open_time] *)

Inductive exn :=
| AssertionError (c : integrity_check)
| OutOfBoundsDatetime   (* [pd.to_datetime]: outside the range of a timestamp *)
| IntCastingNaNError    (* [astype]: a missing value cast to an integer *)
| ValueError.           (* [astype]: a value that cannot be cast losslessly *)

Inductive outcome (A : Type) :=
| Returned (a : A)
| Raised (e : exn).
Arguments Returned {A} a.
Arguments Raised {A} e.

Definition bind {A B} (m : outcome A) (k : A -> outcome B) : outcome B :=
  match m with
  | Returned a => k a
  | Raised e => Raised e
  end.

Notation "x <- m ;; k" := (bind m (fun x => k))
  (at level 61, m at next level, right associativity).

(** [mapM]: run [f] on every element, left to right, stopping at the first
    exception. *)
Fixpoint traverse {A B} (f : A -> outcome B) (l : list A) : outcome (list B) :=
  match l with
  | [] => Returned []
  | a :: l' => b <- f a ;; bs <- traverse f l' ;; Returned (b :: bs)
  end.

(** ** Frames *)

(** A frame as [pd.read_csv] returns it: the twelve columns of the export. *)
Module Csv.
Record row := {
  open_time : option Z;
  open : spec_float;
  high : spec_float;
  low : spec_float;
  close : spec_float;
  volume : spec_float;
  close_time : option Z;
  quote_asset_volume : spec_float;
  number_of_trades : option Z;
  taker_buy_base_asset_volume : spec_float;
  taker_buy_quote_asset_volume : spec_float;
  ignore : spec_float
}.
End Csv.

(** The frame after [df.drop(['close_time', 'ignore'], axis=1)]. *)
Module Pruned.
Record row := {
  open_time : option Z;
  open : spec_float;
  high : spec_float;
  low : spec_float;
  close : spec_float;
  volume : spec_float;
  quote_asset_volume : spec_float;
  number_of_trades : option Z;
  taker_buy_base_asset_volume : spec_float;
  taker_buy_quote_asset_volume : spec_float
}.
End Pruned.

(** The frame after [set_dtypes_compressed]: indexed by the timestamp, floats
    in binary32, the trade count in sixteen unsigned bits. *)
Module Compact.
Record row := {
  index : Timestamp;
  open : spec_float;
  high : spec_float;
  low : spec_float;
  close : spec_float;
  volume : spec_float;
  quote_asset_volume : spec_float;
  number_of_trades : Z;
  taker_buy_base_asset_volume : spec_float;
  taker_buy_quote_asset_volume : spec_float
}.
End Compact.

Definition DataFrame := list Csv.row.

(** A row dictionary of [df.to_dict('records')], as the gap filler reads and
    writes it. *)
Record candle := {
  datetime : Timestamp;
  open : pyval;
  high : pyval;
  low : pyval;
  close : pyval;
  volume : pyval;
  quote_asset_volume : pyval;
  number_of_trades : pyval;
  taker_buy_base_asset_volume : pyval;
  taker_buy_quote_asset_volume : pyval
}.

(** ** Column operations *)

Definition isna_int (c : option Z) : bool :=
  match c with
  | None => true
  | Some _ => false
  end.

Definition isna_float (x : spec_float) : bool :=
  match x with
  | S754_nan => true
  | _ => false
  end.

(** One row of [df.isna().all(axis=1)]. *)
Definition all_na (r : Csv.row) : bool :=
  isna_int (Csv.open_time r) && isna_float (Csv.open r)
  && isna_float (Csv.high r) && isna_float (Csv.low r)
  && isna_float (Csv.close r) && isna_float (Csv.volume r)
  && isna_int (Csv.close_time r) && isna_float (Csv.quote_asset_volume r)
  && isna_int (Csv.number_of_trades r)
  && isna_float (Csv.taker_buy_base_asset_volume r)
  && isna_float (Csv.taker_buy_quote_asset_volume r)
  && isna_float (Csv.ignore r).

(** Equality of two cells of [open_time] as [duplicated] sees it: two missing
    values count as equal. *)
Definition key_eqb (a b : option Z) : bool :=
  match a, b with
  | Some x, Some y => x =? y
  | None, None => true
  | _, _ => false
  end.

(** [Series.duplicated()] (keep='first'): a cell is marked when its value
    occurred at an earlier position. *)
Fixpoint duplicated_from (seen keys : list (option Z)) : list bool :=
  match keys with
  | [] => []
  | k :: ks => existsb (key_eqb k) seen :: duplicated_from (k :: seen) ks
  end.

Definition duplicated (keys : list (option Z)) : list bool :=
  duplicated_from [] keys.

(** [Series.any()] and [Series.sum()] of a boolean series. *)
Definition any (s : list bool) : bool := existsb (fun b => b) s.

Definition sum (s : list bool) : Z :=
  fold_right (fun (b : bool) acc => (if b then 1 else 0) + acc) 0 s.

(** [df[mask]]: the rows at the positions where the mask holds. *)
Fixpoint select {A} (df : list A) (mask : list bool) : list A :=
  match df, mask with
  | r :: df', b :: mask' => if b then r :: select df' mask' else select df' mask'
  | _, _ => []
  end.

(** [df.sort_values(by=['open_time'], ascending=False)]: a new frame, missing
    keys last.  The order among equal keys is left to pandas' sort; here
    insertion keeps it. *)
Definition key_geb (a b : option Z) : bool :=
  match a, b with
  | Some x, Some y => y <=? x
  | Some _, None => true
  | None, Some _ => false
  | None, None => true
  end.

Fixpoint insert_desc (r : Csv.row) (l : DataFrame) : DataFrame :=
  match l with
  | [] => [r]
  | r' :: l' =>
      if key_geb (Csv.open_time r) (Csv.open_time r') then r :: l
      else r' :: insert_desc r l'
  end.

Definition sort_values_desc (df : DataFrame) : DataFrame :=
  fold_right insert_desc [] df.

(** ** [assert_integrity] *)

(** The function reads the frame and returns nothing; the second component
    is the frame as the call leaves it. *)
Definition assert_integrity (df : DataFrame) : outcome unit * DataFrame :=
  if negb (Bool.eqb (any (map all_na df)) false) then
    (Raised (AssertionError EmptyRow), df)
  else if negb (Bool.eqb (any (duplicated (map Csv.open_time df))) false) then
    (Raised (AssertionError DuplicateTimestamp), df)
  else
    (Returned tt, df).

(** ** [quick_clean] *)

Definition quick_clean (df : DataFrame) : outcome DataFrame :=
  let dupes := sum (duplicated (map Csv.open_time df)) in
  let df :=
    if 0 <? dupes
    then select df (map (fun b => Bool.eqb b false)
                        (duplicated (map Csv.open_time df)))
    else df in
  let _ := sort_values_desc df in
  match assert_integrity df with
  | (Returned _, df) => Returned df
  | (Raised e, _) => Raised e
  end.

(** ** Column dtypes and the library *)

(** The dtype of a column of integers read from CSV: [int64] when every
    cell holds an integer of 64 signed bits, [float64] as soon as one cell of
    the column is missing.  A selection of rows keeps the dtype of every
    column, also when the rows with the missing cells are gone.  Columns of
    another dtype (integers beyond 64 signed bits, text) are outside this
    development. *)
Inductive dtype := int64 | float64.

(** A frame with the dtypes of its three integer columns.  In an [int64]
    column no cell is missing and every cell lies in the range of 64 signed
    bits. *)
Record Frame := {
  open_time_dtype : dtype;
  close_time_dtype : dtype;
  number_of_trades_dtype : dtype;
  rows : DataFrame
}.

(** What the source leaves to the installed pandas and numpy.
    - [datetime_in_bounds ms]: [pd.to_datetime(unit='ms')] converts [ms]
      milliseconds since the epoch instead of raising; the range depends on
      the resolution the library gives the result.
    - [float64_to_uint16 n]: what [astype('uint16')] makes of the value [n]
      in a float64 column when [n] is outside 0..65535; some versions raise,
      others reduce the value. *)
Record Pandas := {
  datetime_in_bounds : Z -> bool;
  float64_to_uint16 : Z -> outcome Z
}.

(** ** [set_dtypes_compressed] *)

(** [pd.to_datetime(c, unit='ms')] on one cell.  A missing cell becomes NaT,
    as does the 64-bit minimum (the bit pattern of NaT).  Any other value is
    converted when the library has a timestamp for it. *)
Definition to_datetime_ms (pd : Pandas) (c : option Z) : outcome Timestamp :=
  match c with
  | None => Returned NaT
  | Some ms =>
      if ms =? - 2 ^ 63 then Returned NaT
      else if datetime_in_bounds pd ms then Returned (Some ms)
      else Raised OutOfBoundsDatetime
  end.

(** [astype('uint16')] on one cell of the column [number_of_trades], once
    the column is known to have no missing cell.  In an int64 column the low
    sixteen bits are kept, without any range check.  In a float64 column a
    value between 0 and 65535 is kept, any other is left to the library. *)
Definition astype_uint16 (pd : Pandas) (dt : dtype) (c : option Z)
  : outcome Z :=
  match c with
  | None => Raised IntCastingNaNError
  | Some n =>
      match dt with
      | int64 => Returned (n mod 2 ^ 16)
      | float64 =>
          if (0 <=? n) && (n <? 2 ^ 16) then Returned n
          else float64_to_uint16 pd n
      end
  end.

(** [astype('float32')] on one cell: rounding to binary32 (24 bits of
    precision, exponent bound 128), to nearest, ties to even; values beyond
    the binary32 range become infinities, NaN stays NaN. *)
Definition astype_float32 (x : spec_float) : spec_float := SFldexp 24 128 x 0.

(** [df.astype(dtype={...})] on one row whose index is [t]. *)
Definition astype_row (pd : Pandas) (dt : dtype) (t : Timestamp)
    (r : Pruned.row) : outcome Compact.row :=
  n <- astype_uint16 pd dt (Pruned.number_of_trades r) ;;
  Returned {|
    Compact.index := t;
    Compact.open := astype_float32 (Pruned.open r);
    Compact.high := astype_float32 (Pruned.high r);
    Compact.low := astype_float32 (Pruned.low r);
    Compact.close := astype_float32 (Pruned.close r);
    Compact.volume := astype_float32 (Pruned.volume r);
    Compact.quote_asset_volume := astype_float32 (Pruned.quote_asset_volume r);
    Compact.number_of_trades := n;
    Compact.taker_buy_base_asset_volume :=
      astype_float32 (Pruned.taker_buy_base_asset_volume r);
    Compact.taker_buy_quote_asset_volume :=
      astype_float32 (Pruned.taker_buy_quote_asset_volume r)
  |}.

(** The first statement converts the whole [open_time] column, the second
    makes it the index, the third casts the other columns.  [dt] is the
    dtype the column [number_of_trades] has when the frame comes in; a
    missing cell in it is refused before any cell is cast. *)
Definition set_dtypes_compressed (pd : Pandas) (dt : dtype)
    (df : list Pruned.row) : outcome (list Compact.row) :=
  indexed <- traverse (fun r =>
               t <- to_datetime_ms pd (Pruned.open_time r) ;; Returned (t, r))
             df ;;
  if existsb (fun tr : Timestamp * Pruned.row =>
                isna_int (Pruned.number_of_trades (snd tr))) indexed
  then Raised IntCastingNaNError
  else traverse (fun tr : Timestamp * Pruned.row =>
                   astype_row pd dt (fst tr) (snd tr)) indexed.

(** ** [addMissingMinutes] *)

(** One pass through the body of the [while] loop (lines 88 to 96): the
    timestamp moves one minute on, the five volume fields are set to the
    integer [0], and low, high and open take the value of close. *)
Definition fill (current : candle) : candle := {|
  datetime := ts_add (datetime current) minute;
  open := close current;
  high := close current;
  low := close current;
  close := close current;
  volume := PyInt 0;
  quote_asset_volume := PyInt 0;
  number_of_trades := PyInt 0;
  taker_buy_base_asset_volume := PyInt 0;
  taker_buy_quote_asset_volume := PyInt 0
|}.

(** Whole minutes from [a] up to [b]: the measure that decreases along the
    [while] loop. *)
Definition span (a b : Timestamp) : nat :=
  match a, b with
  | Some x, Some y => Z.to_nat ((y - x) / minute)
  | _, _ => 0%nat
  end.

(** The [while] loop of lines 87 to 98: the rows it appends to [cleanData],
    starting from the dictionary [current]. *)
Equations? missing_rows (current row : candle) : list candle
  by wf (span (datetime current) (datetime row)) lt :=
  missing_rows current row
    with sumbool_of_bool
           (ts_lt (ts_add (datetime current) minute) (datetime row)) => {
    | left _ := fill current :: missing_rows (fill current) row
    | right _ := [] }.
Proof.
  destruct (datetime current) as [x|], (datetime row) as [y|];
    simpl in *; try discriminate.
  apply Z.ltb_lt in e. unfold minute in *.
  replace (y - (x + 60000)) with ((y - x) + (-1) * 60000) by lia.
  rewrite Z.div_add by lia.
  assert (1 <= (y - x) / 60000) by (apply Z.div_le_lower_bound; lia).
  lia.
Qed.

(** The body of the [for] loop (lines 85 to 101) on the pair
    ([cleanData], [previousRow]); [previousRow] is [None] while it is still
    the empty list. *)
Definition for_body (st : list candle * option candle) (row : candle)
  : list candle * option candle :=
  let (cleanData, previousRow) := st in
  let cleanData :=
    match previousRow with
    | Some prev =>
        if ts_diff_gt (datetime row) (datetime prev) minute
        then cleanData ++ missing_rows prev row
        else cleanData
    | None => cleanData
    end in
  (cleanData ++ [row], Some row).

Definition addMissingMinutes (initialData : list candle) : list candle :=
  fst (fold_left for_body initialData ([], None)).

(** ** [write_raw_to_parquet] *)

(** The integer [z] reduced to 64 signed bits. *)
Definition wrap64 (z : Z) : Z := (z + 2 ^ 63) mod 2 ^ 64 - 2 ^ 63.

(** The integer [n] as a float64: the nearest double, ties to even. *)
Definition float64_of_int (n : Z) : spec_float :=
  binary_normalize 53 1024 n 0 false.

(** One cell of [df['open_time'] - df['close_time'] != -59999].  Two int64
    columns are subtracted in 64 signed bits, with wrap-around; when one of
    the columns is float64 both cells are subtracted as float64.  A missing
    cell makes the difference missing, and a missing value differs from
    everything. *)
Definition duration_ne (open_dtype close_dtype : dtype) (r : Csv.row) : bool :=
  match Csv.open_time r, Csv.close_time r with
  | Some o, Some c =>
      match open_dtype, close_dtype with
      | int64, int64 => negb (wrap64 (o - c) =? -59999)
      | _, _ =>
          negb (SFeqb (SFsub 53 1024 (float64_of_int o) (float64_of_int c))
                      (float64_of_int (-59999)))
      end
  | _, _ => true
  end.

Definition drop_columns (r : Csv.row) : Pruned.row := {|
  Pruned.open_time := Csv.open_time r;
  Pruned.open := Csv.open r;
  Pruned.high := Csv.high r;
  Pruned.low := Csv.low r;
  Pruned.close := Csv.close r;
  Pruned.volume := Csv.volume r;
  Pruned.quote_asset_volume := Csv.quote_asset_volume r;
  Pruned.number_of_trades := Csv.number_of_trades r;
  Pruned.taker_buy_base_asset_volume := Csv.taker_buy_base_asset_volume r;
  Pruned.taker_buy_quote_asset_volume := Csv.taker_buy_quote_asset_volume r
|}.

(** One dictionary of [df.to_dict('records')], after the index has been
    copied into the column [datetime]. *)
Definition to_record (c : Compact.row) : candle := {|
  datetime := Compact.index c;
  open := PyFloat (Compact.open c);
  high := PyFloat (Compact.high c);
  low := PyFloat (Compact.low c);
  close := PyFloat (Compact.close c);
  volume := PyFloat (Compact.volume c);
  quote_asset_volume := PyFloat (Compact.quote_asset_volume c);
  number_of_trades := PyInt (Compact.number_of_trades c);
  taker_buy_base_asset_volume := PyFloat (Compact.taker_buy_base_asset_volume c);
  taker_buy_quote_asset_volume := PyFloat (Compact.taker_buy_quote_asset_volume c)
|}.

Definition addMissingMinutesDf (df : list Compact.row) : list candle :=
  addMissingMinutes (map to_record df).

(** The result is the content of the frame handed to [to_parquet].  The
    selection of line 120 keeps the dtypes of the frame it selects from. *)
Definition write_raw_to_parquet (pd : Pandas) (df : Frame)
  : outcome (list candle) :=
  let dt := number_of_trades_dtype df in
  let df :=
    select (rows df)
      (map (fun r => negb (duration_ne (open_time_dtype df)
                                        (close_time_dtype df) r))
           (rows df)) in
  let df := map drop_columns df in
  df <- set_dtypes_compressed pd dt df ;;
  Returned (addMissingMinutesDf df).

(** ** [compress_data] *)

(** [s.endswith(suffix)]. *)
Fixpoint endswith (s suffix : string) : bool :=
  if String.eqb s suffix then true
  else
    match s with
    | EmptyString => false
    | String _ s' => endswith s' suffix
    end.

(** [s.replace('.csv', '.parquet')]: every occurrence of [.csv], found from
    left to right without overlap, is replaced.  [skip] counts the characters
    of the occurrence just replaced that are still to be passed over. *)
Fixpoint replace_from (skip : nat) (s : string) : string :=
  match s with
  | EmptyString => EmptyString
  | String c s' =>
      match skip with
      | S k => replace_from k s'
      | O =>
          if String.prefix ".csv" s
          then String.append ".parquet" (replace_from 3 s')
          else String c (replace_from 0 s')
      end
  end.

Definition replace_csv_parquet (s : string) : string := replace_from 0 s.

(** [f'compressed/{new_filename}']. *)
Definition new_full_path (filename : string) : string :=
  String.append "compressed/" (replace_csv_parquet filename).

(** The loop of lines 152 to 160 over the directory listing.  An entry
    of the listing is a file name with the frame [pd.read_csv] returns for
    it; [written] is the log of the calls of [to_parquet], oldest first.  An
    exception leaves the loop with the log as it stands. *)
Fixpoint compress_loop (pd : Pandas) (listing : list (string * Frame))
    (written : list (string * list candle))
  : outcome unit * list (string * list candle) :=
  match listing with
  | [] => (Returned tt, written)
  | (filename, df) :: listing' =>
      if endswith filename ".csv"
      then
        match write_raw_to_parquet pd df with
        | Returned content =>
            compress_loop pd listing'
              (written ++ [(new_full_path filename, content)])
        | Raised e => (Raised e, written)
        end
      else compress_loop pd listing' written
  end.

Definition compress_data (pd : Pandas) (listing : list (string * Frame))
  : outcome unit * list (string * list candle) :=
  compress_loop pd listing [].

(** ** Vocabulary of the properties *)

(** The [i]-th synthesized record after the record [p]. *)
Definition filler (p : candle) (i : Z) : candle := {|
  datetime := ts_add (datetime p) (i * minute);
  open := close p;
  high := close p;
  low := close p;
  close := close p;
  volume := PyInt 0;
  quote_asset_volume := PyInt 0;
  number_of_trades := PyInt 0;
  taker_buy_base_asset_volume := PyInt 0;
  taker_buy_quote_asset_volume := PyInt 0
|}.

(** The fillers [filler p 1], ..., [filler p n]. *)
Definition fillers (p : candle) (n : nat) : list candle :=
  map (fun i => filler p (Z.of_nat i)) (seq 1 n).

(** The rows the [for] loop appends when it starts with [previousRow] and
    runs over [rows]. *)
Fixpoint scan (previousRow : option candle) (rows : list candle) : list candle :=
  match rows with
  | [] => []
  | row :: rows' =>
      match previousRow with
      | Some prev =>
          if ts_diff_gt (datetime row) (datetime prev) minute
          then missing_rows prev row
          else []
      | None => []
      end ++ row :: scan (Some row) rows'
  end.

(** [a] and [b] are neighbours in [l], [a] first. *)
Definition consecutive {A} (l : list A) (a b : A) : Prop :=
  exists pre post, l = pre ++ a :: b :: post.

Inductive subsequence {A} : list A -> list A -> Prop :=
| sub_nil : forall l, subsequence [] l
| sub_take : forall a l1 l2, subsequence l1 l2 -> subsequence (a :: l1) (a :: l2)
| sub_skip : forall a l1 l2, subsequence l1 l2 -> subsequence l1 (a :: l2).

(** The minutes missing between neighbours, summed over the sequence. *)
Definition gap_minutes (a b : candle) : Z :=
  match datetime a, datetime b with
  | Some x, Some y => (y - x) / minute
  | _, _ => 0
  end.

Fixpoint missing_minutes (l : list candle) : Z :=
  match l with
  | a :: (b :: _) as l' => (gap_minutes a b - 1) + missing_minutes l'
  | _ => 0
  end.

(** Two rows at different positions with the same [open_time]. *)
Definition has_duplicate_open_time (df : DataFrame) : Prop :=
  exists i j r1 r2,
    (i < j)%nat /\ nth_error df i = Some r1 /\ nth_error df j = Some r2 /\
    Csv.open_time r1 = Csv.open_time r2.

(** A row whose twelve cells are all missing. *)
Definition all_empty (r : Csv.row) : Prop :=
  Csv.open_time r = None /\ Csv.open r = S754_nan /\ Csv.high r = S754_nan /\
  Csv.low r = S754_nan /\ Csv.close r = S754_nan /\ Csv.volume r = S754_nan /\
  Csv.close_time r = None /\ Csv.quote_asset_volume r = S754_nan /\
  Csv.number_of_trades r = None /\
  Csv.taker_buy_base_asset_volume r = S754_nan /\
  Csv.taker_buy_quote_asset_volume r = S754_nan /\ Csv.ignore r = S754_nan.

(** The frame with every row whose [open_time] repeats an earlier one
    removed. *)
Fixpoint keep_first (seen : list (option Z)) (df : DataFrame) : DataFrame :=
  match df with
  | [] => []
  | r :: df' =>
      if existsb (key_eqb (Csv.open_time r)) seen
      then keep_first (Csv.open_time r :: seen) df'
      else r :: keep_first (Csv.open_time r :: seen) df'
  end.

(** Rows in descending order of [open_time], missing keys last. *)
Fixpoint descending (df : DataFrame) : bool :=
  match df with
  | a :: (b :: _) as df' =>
      key_geb (Csv.open_time a) (Csv.open_time b) && descending df'
  | _ => true
  end.

(** Every pair of neighbours of [l] is related by [R]. *)
Fixpoint chain {A} (R : A -> A -> Prop) (l : list A) : Prop :=
  match l with
  | a :: (b :: _) as l' => R a b /\ chain R l'
  | _ => True
  end.

(** [b] lies exactly one minute after [a]. *)
Definition one_minute_apart (a b : candle) : Prop :=
  exists t, datetime a = Some t /\ datetime b = Some (t + minute).

(** [b] lies a positive whole number of minutes after [a]. *)
Definition whole_minutes_apart (a b : candle) : Prop :=
  exists t k, datetime a = Some t /\ datetime b = Some (t + k * minute) /\ 1 <= k.

(** What [set_dtypes_compressed] makes of one row of a frame without
    missing trade counts. *)
Definition cast_row (pd : Pandas) (dt : dtype) (r : Pruned.row)
  : outcome Compact.row :=
  t <- to_datetime_ms pd (Pruned.open_time r) ;; astype_row pd dt t r.

(** Line 120 keeps the row [r] of the frame [df]: its
    [open_time - close_time], computed as the dtypes of [df] have it, is
    [-59999]. *)
Definition keeps (df : Frame) (r : Csv.row) : bool :=
  negb (duration_ne (open_time_dtype df) (close_time_dtype df) r).

(** The rows of [df] that line 120 keeps. *)
Definition kept (df : Frame) : DataFrame := filter (keeps df) (rows df).


(** [b] is at most one minute after [a], when both have a timestamp. *)
Definition no_gap (a b : candle) : Prop :=
  forall x y, datetime a = Some x -> datetime b = Some y -> y - x <= minute.

(** [b] is strictly later than [a]. *)
Definition earlier (a b : candle) : Prop :=
  exists x y, datetime a = Some x /\ datetime b = Some y /\ x < y.

(** The row [b] opens a positive whole number of minutes after the row
    [a], both within the range of a timestamp. *)
Definition opens_whole_minutes_after (a b : Csv.row) : Prop :=
  exists t k,
    Csv.open_time a = Some t /\ Csv.open_time b = Some (t + k * minute) /\
    1 <= k /\ - 2 ^ 63 < t.

(** The name of a file of the listing that [compress_data] converts. *)
Definition is_csv (entry : string * Frame) : bool :=
  endswith (fst entry) ".csv".

(** [pattern] occurs in [s]. *)
Definition occurs (pattern s : string) : Prop :=
  exists before after, s = String.append before (String.append pattern after).

(** The sign of a float, [None] for NaN. *)
Definition sign_of (x : spec_float) : option bool :=
  match x with
  | S754_zero s | S754_infinity s | S754_finite s _ _ => Some s
  | S754_nan => None
  end.

(** [R] relates each float cell of the row [r] to the cell of the same
    column of the compact row [c]. *)
Definition float_columns (R : spec_float -> spec_float -> Prop)
    (r : Pruned.row) (c : Compact.row) : Prop :=
  R (Pruned.open r) (Compact.open c) /\
  R (Pruned.high r) (Compact.high c) /\
  R (Pruned.low r) (Compact.low c) /\
  R (Pruned.close r) (Compact.close c) /\
  R (Pruned.volume r) (Compact.volume c) /\
  R (Pruned.quote_asset_volume r) (Compact.quote_asset_volume c) /\
  R (Pruned.taker_buy_base_asset_volume r)
    (Compact.taker_buy_base_asset_volume c) /\
  R (Pruned.taker_buy_quote_asset_volume r)
    (Compact.taker_buy_quote_asset_volume c).

(** ** Sample data *)

(** The float [m * 2^e]. *)
Definition quote (m : positive) (e : Z) : spec_float := S754_finite false m e.

(** A row of an export: opened at [o], closed at [c], [n] trades, close
    price [px]. *)
Definition csv_row (o c n : Z) (px : spec_float) : Csv.row := {|
  Csv.open_time := Some o;
  Csv.open := quote 3 (-1);
  Csv.high := quote 7 (-2);
  Csv.low := quote 5 (-2);
  Csv.close := px;
  Csv.volume := quote 5 1;
  Csv.close_time := Some c;
  Csv.quote_asset_volume := quote 15 0;
  Csv.number_of_trades := Some n;
  Csv.taker_buy_base_asset_volume := quote 1 1;
  Csv.taker_buy_quote_asset_volume := quote 3 0;
  Csv.ignore := S754_zero false
|}.

(** A line of the export made of separators only: every cell is missing. *)
Definition blank_row : Csv.row := {|
  Csv.open_time := None;
  Csv.open := S754_nan;
  Csv.high := S754_nan;
  Csv.low := S754_nan;
  Csv.close := S754_nan;
  Csv.volume := S754_nan;
  Csv.close_time := None;
  Csv.quote_asset_volume := S754_nan;
  Csv.number_of_trades := None;
  Csv.taker_buy_base_asset_volume := S754_nan;
  Csv.taker_buy_quote_asset_volume := S754_nan;
  Csv.ignore := S754_nan
|}.

(** A record at [t] milliseconds with close price [px]. *)
Definition sample_candle (t : Z) (px : spec_float) : candle := {|
  datetime := Some t;
  open := PyFloat (quote 3 (-1));
  high := PyFloat (quote 7 (-2));
  low := PyFloat (quote 5 (-2));
  close := PyFloat px;
  volume := PyFloat (quote 5 1);
  quote_asset_volume := PyFloat (quote 15 0);
  number_of_trades := PyInt 12;
  taker_buy_base_asset_volume := PyFloat (quote 1 1);
  taker_buy_quote_asset_volume := PyFloat (quote 3 0)
|}.

(** A row of an export whose trade count is missing. *)
Definition csv_row_without_trades (o c : Z) (px : spec_float) : Csv.row := {|
  Csv.open_time := Some o;
  Csv.open := quote 3 (-1);
  Csv.high := quote 7 (-2);
  Csv.low := quote 5 (-2);
  Csv.close := px;
  Csv.volume := quote 5 1;
  Csv.close_time := Some c;
  Csv.quote_asset_volume := quote 15 0;
  Csv.number_of_trades := None;
  Csv.taker_buy_base_asset_volume := quote 1 1;
  Csv.taker_buy_quote_asset_volume := quote 3 0;
  Csv.ignore := S754_zero false
|}.

(** A frame whose three integer columns are int64. *)
Definition int64_frame (l : DataFrame) : Frame := {|
  open_time_dtype := int64;
  close_time_dtype := int64;
  number_of_trades_dtype := int64;
  rows := l
|}.

(** A frame whose three integer columns are float64. *)
Definition float64_frame (l : DataFrame) : Frame := {|
  open_time_dtype := float64;
  close_time_dtype := float64;
  number_of_trades_dtype := float64;
  rows := l
|}.

(** A frame whose column [number_of_trades] is float64. *)
Definition float64_trades_frame (l : DataFrame) : Frame := {|
  open_time_dtype := int64;
  close_time_dtype := int64;
  number_of_trades_dtype := float64;
  rows := l
|}.

(** A library to run the definitions with: timestamps are counted in
    nanoseconds in 64 signed bits; the cast of a float64 column refuses a
    negative count and reduces a count above 65535 modulo 65536. *)
Definition nanosecond_pandas : Pandas := {|
  datetime_in_bounds ms :=
    (- 2 ^ 63 <? ms * 1000000) && (ms * 1000000 <? 2 ^ 63);
  float64_to_uint16 n :=
    if n <? 0 then Raised ValueError else Returned (n mod 2 ^ 16)
|}.

(** A record without a timestamp (NaT). *)
Definition undated_candle (px : spec_float) : candle := {|
  datetime := NaT;
  open := PyFloat (quote 3 (-1));
  high := PyFloat (quote 7 (-2));
  low := PyFloat (quote 5 (-2));
  close := PyFloat px;
  volume := PyFloat (quote 5 1);
  quote_asset_volume := PyFloat (quote 15 0);
  number_of_trades := PyInt 12;
  taker_buy_base_asset_volume := PyFloat (quote 1 1);
  taker_buy_quote_asset_volume := PyFloat (quote 3 0)
|}.

(** * Properties *)

(** ** The gap filler *)

Section GapFiller.

Lemma missing_rows_step (current row : candle) :
  missing_rows current row =
  if ts_lt (ts_add (datetime current) minute) (datetime row)
  then fill current :: missing_rows (fill current) row
  else [].
Proof.
  rewrite missing_rows_equation_1.
  destruct (sumbool_of_bool _) as [E|E]; simpl;
    rewrite E at 1; simp missing_rows; reflexivity.
Qed.

Lemma fill_from (p current : candle) (x i : Z) :
  datetime p = Some x ->
  datetime current = Some (x + i * minute) ->
  close current = close p ->
  fill current = filler p (i + 1).
Proof.
  intros Hp Hd Hc. unfold fill, filler.
  rewrite Hp, Hd, Hc. simpl.
  replace (x + i * minute + minute) with (x + (i + 1) * minute) by lia.
  reflexivity.
Qed.

Lemma filler_shift (p : candle) (i : Z) (n : nat) :
  map (fun j => filler p (i + 1 + Z.of_nat j)) (seq 1 n) =
  map (fun j => filler p (i + Z.of_nat j)) (seq 2 n).
Proof.
  rewrite <- (seq_shift n 1), map_map.
  apply map_ext. intro j. f_equal. lia.
Qed.

(** The loop started [i] minutes after [p], [n] whole minutes short of
    [row], appends the next [n] fillers of [p]. *)
Lemma missing_rows_run (p row : candle) (x y : Z) :
  datetime p = Some x ->
  datetime row = Some y ->
  forall (n : nat) (current : candle) (i : Z),
    datetime current = Some (x + i * minute) ->
    close current = close p ->
    x + (i + Z.of_nat n) * minute < y <= x + (i + Z.of_nat n + 1) * minute ->
    missing_rows current row =
    map (fun j => filler p (i + Z.of_nat j)) (seq 1 n).
Proof.
  intros Hp Hrow n.
  induction n as [|n IH]; intros current i Hd Hc Hy;
    rewrite missing_rows_step, Hd, Hrow; simpl ts_lt.
  - replace (x + i * minute + minute <? y) with false; [reflexivity|].
    symmetry. apply Z.ltb_ge. simpl Z.of_nat in Hy. lia.
  - replace (x + i * minute + minute <? y) with true.
    + rewrite (fill_from p current x i Hp Hd Hc).
      rewrite (IH (filler p (i + 1)) (i + 1)).
      * cbn [seq map]. f_equal. apply filler_shift.
      * unfold filler. rewrite Hp. reflexivity.
      * reflexivity.
      * lia.
    + symmetry. apply Z.ltb_lt.
      assert (0 < minute) by (unfold minute; lia). nia.
Qed.

(** Between a record at [x] and one [k >= 1] whole minutes later the loop
    appends [k - 1] fillers. *)
Lemma missing_rows_aligned (p row : candle) (x k : Z) :
  datetime p = Some x ->
  datetime row = Some (x + k * minute) ->
  1 <= k ->
  missing_rows p row = fillers p (Z.to_nat (k - 1)).
Proof.
  intros Hp Hrow Hk. unfold fillers.
  rewrite (missing_rows_run p row x (x + k * minute) Hp Hrow
             (Z.to_nat (k - 1)) p 0).
  - apply map_ext. intro j. reflexivity.
  - rewrite Hp. f_equal. lia.
  - reflexivity.
  - rewrite Z2Nat.id by lia.
    assert (0 < minute) by (unfold minute; lia). nia.
Qed.

Lemma fillers_length (p : candle) (n : nat) : length (fillers p n) = n.
Proof. unfold fillers. rewrite length_map, length_seq. reflexivity. Qed.

Lemma fillers_nth (p : candle) (n i : nat) :
  (i < n)%nat ->
  nth_error (fillers p n) i = Some (filler p (Z.of_nat (S i))).
Proof.
  intro Hi. unfold fillers.
  rewrite nth_error_map, nth_error_seq.
  destruct (Nat.ltb_spec i n); [reflexivity | lia].
Qed.

(** The [for] loop, read as a recursion over the rows still to come. *)
Lemma fold_for_body (l : list candle) :
  forall acc p, fst (fold_left for_body l (acc, p)) = acc ++ scan p l.
Proof.
  induction l as [|row l IH]; intros acc p; simpl.
  - rewrite app_nil_r. reflexivity.
  - rewrite IH.
    destruct p as [prev|]; [destruct (ts_diff_gt _ _ _)|];
      rewrite <- ?app_assoc; simpl; rewrite <- ?app_assoc; reflexivity.
Qed.

Lemma addMissingMinutes_scan (l : list candle) :
  addMissingMinutes l = scan None l.
Proof. unfold addMissingMinutes. rewrite fold_for_body. reflexivity. Qed.

Lemma scan_app (pre rest : list candle) (r : candle) :
  forall p, scan p (pre ++ r :: rest) = scan p (pre ++ [r]) ++ scan (Some r) rest.
Proof.
  induction pre as [|a pre IH]; intro p; simpl.
  - rewrite <- app_assoc. reflexivity.
  - rewrite IH, <- app_assoc. reflexivity.
Qed.

Lemma scan_ends (pre : list candle) (r : candle) :
  forall p, exists before, scan p (pre ++ [r]) = before ++ [r].
Proof.
  induction pre as [|a pre IH]; intro p; simpl.
  - eexists. reflexivity.
  - destruct (IH (Some a)) as [b Hb]. rewrite Hb.
    eexists. rewrite app_comm_cons, app_assoc. reflexivity.
Qed.

(** Whatever the two timestamps, a loop that is entered appends the
    fillers for every minute strictly between them. *)
Lemma missing_rows_entered (p row : candle) (x y : Z) :
  datetime p = Some x ->
  datetime row = Some y ->
  minute < y - x ->
  missing_rows p row = fillers p (Z.to_nat ((y - x - 1) / minute)).
Proof.
  intros Hp Hrow Hgap. unfold fillers.
  assert (Hm : 0 < minute) by (unfold minute; lia).
  pose proof (Z.div_mod (y - x - 1) minute ltac:(lia)) as Hdiv.
  pose proof (Z.mod_pos_bound (y - x - 1) minute Hm) as Hmod.
  assert (0 <= (y - x - 1) / minute) by (apply Z.div_pos; lia).
  rewrite (missing_rows_run p row x y Hp Hrow
             (Z.to_nat ((y - x - 1) / minute)) p 0).
  - apply map_ext. intro j. reflexivity.
  - rewrite Hp. f_equal. lia.
  - reflexivity.
  - rewrite Z2Nat.id by lia. nia.
Qed.

(** What the [for] loop appends before a row that lies [k >= 1] whole
    minutes after the previous one. *)
Lemma before_row_aligned (p row : candle) (x k : Z) :
  datetime p = Some x ->
  datetime row = Some (x + k * minute) ->
  1 <= k ->
  (if ts_diff_gt (datetime row) (datetime p) minute
   then missing_rows p row else []) = fillers p (Z.to_nat (k - 1)).
Proof.
  intros Hp Hrow Hk.
  destruct (ts_diff_gt _ _ _) eqn:E.
  - apply (missing_rows_aligned p row x k Hp Hrow Hk).
  - rewrite Hp, Hrow in E. simpl in E. apply Z.ltb_ge in E.
    assert (k = 1) by (unfold minute in E; lia). subst k. reflexivity.
Qed.

End GapFiller.

(** C1.  Whenever two neighbouring input records [r1] and [r2] lie at minute
    [t] and at minute [t + k] with [k >= 2], the output of the gap filler
    holds, directly after [r1] and directly before [r2], exactly [k - 1]
    synthesized records; the [i]-th of them is at minute [t + i], has its
    five volume and trade fields equal to [0] and its open, high, low and
    close equal to the close of [r1].  This holds for every input sequence,
    so in particular for those sorted by timestamp. *)
Theorem gap_is_filled (pre post : list candle) (r1 r2 : candle) (t k : Z) :
  datetime r1 = Some t ->
  datetime r2 = Some (t + k * minute) ->
  2 <= k ->
  exists before synthesized,
    addMissingMinutes (pre ++ r1 :: r2 :: post) =
      before ++ r1 :: synthesized ++ r2 :: scan (Some r2) post /\
    addMissingMinutes (pre ++ [r1]) = before ++ [r1] /\
    Z.of_nat (length synthesized) = k - 1 /\
    forall i, 1 <= i <= k - 1 ->
      nth_error synthesized (Z.to_nat (i - 1)) = Some {|
        datetime := Some (t + i * minute);
        open := close r1;
        high := close r1;
        low := close r1;
        close := close r1;
        volume := PyInt 0;
        quote_asset_volume := PyInt 0;
        number_of_trades := PyInt 0;
        taker_buy_base_asset_volume := PyInt 0;
        taker_buy_quote_asset_volume := PyInt 0
      |}.
Proof.
  intros H1 H2 Hk.
  destruct (scan_ends pre r1 None) as [before Hb].
  exists before, (fillers r1 (Z.to_nat (k - 1))).
  rewrite !addMissingMinutes_scan, scan_app, Hb.
  repeat split.
  - rewrite <- app_assoc. simpl. do 2 f_equal.
    rewrite (before_row_aligned r1 r2 t k H1 H2) by lia.
    reflexivity.
  - rewrite fillers_length. lia.
  - intros i Hi. rewrite fillers_nth by lia.
    replace (Z.of_nat (S (Z.to_nat (i - 1)))) with i by lia.
    unfold filler. rewrite H1. reflexivity.
Qed.

(** C2.  Between two neighbouring input records [k] whole minutes apart
    with [k = 1], [k = 0] or [k < 0] the gap filler inserts nothing: the
    second follows the first directly in the output.  Nothing is inserted
    before the first input record either: it is the first output record. *)
Theorem no_gap_no_filler (pre post : list candle) (r1 r2 : candle) (t k : Z) :
  datetime r1 = Some t ->
  datetime r2 = Some (t + k * minute) ->
  k <= 1 ->
  (exists before,
     addMissingMinutes (pre ++ r1 :: r2 :: post) =
       before ++ r1 :: r2 :: scan (Some r2) post /\
     addMissingMinutes (pre ++ [r1]) = before ++ [r1]) /\
  (forall r l, addMissingMinutes (r :: l) = r :: scan (Some r) l).
Proof.
  intros H1 H2 Hk. split.
  - destruct (scan_ends pre r1 None) as [before Hb].
    exists before.
    rewrite !addMissingMinutes_scan, scan_app, Hb.
    split; [|reflexivity].
    rewrite <- app_assoc. simpl. do 2 f_equal.
    replace (ts_diff_gt (datetime r2) (datetime r1) minute) with false;
      [reflexivity|].
    rewrite H1, H2. simpl. symmetry. apply Z.ltb_ge.
    unfold minute. lia.
  - intros r l. rewrite addMissingMinutes_scan. reflexivity.
Qed.

Section Contiguity.

Lemma chain_consecutive {A} (R : A -> A -> Prop) (l : list A) :
  chain R l <-> (forall a b, consecutive l a b -> R a b).
Proof.
  induction l as [|a [|b l] IH].
  - split; [|constructor]. intros _ x y [[|? ?] [? E]]; discriminate E.
  - split; [|constructor].
    intros _ x y [[|? [|? ?]] [? E]]; discriminate E.
  - split.
    + intros [Hab Hl] x y [[|c pre] [post E]].
      * injection E as -> -> _. exact Hab.
      * injection E as _ E. apply IH; [exact Hl|]. exists pre, post. exact E.
    + intro H. split.
      * apply H. exists [], l. reflexivity.
      * apply IH. intros x y [pre [post E]].
        apply H. exists (a :: pre), post. rewrite E. reflexivity.
Qed.

(** A record followed by its next fillers and by a record one minute after
    the last of them: a run without holes. *)
Lemma chain_fillers (p r : candle) (rest : list candle) (t : Z) :
  datetime p = Some t ->
  chain one_minute_apart (r :: rest) ->
  forall (n i : nat) (a : candle),
    datetime a = Some (t + Z.of_nat i * minute) ->
    datetime r = Some (t + Z.of_nat (S (i + n)) * minute) ->
    chain one_minute_apart
      (a :: map (fun j => filler p (Z.of_nat j)) (seq (S i) n) ++ r :: rest).
Proof.
  intros Hp Hrest n.
  induction n as [|n IH]; intros i a Ha Hr.
  - simpl. split; [|exact Hrest].
    exists (t + Z.of_nat i * minute). split; [exact Ha|].
    rewrite Hr. f_equal. rewrite Nat.add_0_r. lia.
  - cbn [seq map app]. split.
    + exists (t + Z.of_nat i * minute). split; [exact Ha|].
      unfold filler. rewrite Hp. cbn [datetime ts_add]. f_equal. lia.
    + apply IH.
      * unfold filler. rewrite Hp. reflexivity.
      * rewrite Hr. do 3 f_equal. lia.
Qed.

Lemma gap_minutes_aligned (p r : candle) (t k : Z) :
  datetime p = Some t ->
  datetime r = Some (t + k * minute) ->
  gap_minutes p r = k.
Proof.
  intros Hp Hr. unfold gap_minutes. rewrite Hp, Hr.
  replace (t + k * minute - t) with (k * minute) by lia.
  apply Z.div_mul. unfold minute. lia.
Qed.

Lemma scan_contiguous (l : list candle) :
  forall p,
    chain whole_minutes_apart (p :: l) ->
    chain one_minute_apart (p :: scan (Some p) l) /\
    Z.of_nat (length (scan (Some p) l)) =
      Z.of_nat (length l) + missing_minutes (p :: l).
Proof.
  induction l as [|r l IH]; intros p Hl.
  - simpl. split; [exact I | reflexivity].
  - destruct Hl as [(t & k & Hp & Hr & Hk) Hl].
    destruct (IH r Hl) as [Hc Hlen].
    cbn [scan].
    rewrite (before_row_aligned p r t k Hp Hr Hk).
    split.
    + apply (chain_fillers p r (scan (Some r) l) t Hp Hc
               (Z.to_nat (k - 1)) 0 p).
      * rewrite Hp. f_equal. lia.
      * rewrite Hr. do 3 f_equal. lia.
    + rewrite length_app, fillers_length. cbn [length].
      change (missing_minutes (p :: r :: l))
        with (gap_minutes p r - 1 + missing_minutes (r :: l)).
      rewrite (gap_minutes_aligned p r t k Hp Hr). lia.
Qed.

End Contiguity.

(** C3.  When every input record lies a positive whole number of minutes
    after its predecessor (per-minute records, strictly ascending), any two
    neighbours of the gap filler's output are exactly one minute apart, and
    the output is as long as the input plus the minutes missing in
    all its gaps. *)
Theorem filled_sequence_has_no_holes (l : list candle) :
  (forall a b, consecutive l a b ->
     exists t k,
       datetime a = Some t /\ datetime b = Some (t + k * minute) /\ 1 <= k) ->
  (forall a b, consecutive (addMissingMinutes l) a b ->
     exists t, datetime a = Some t /\ datetime b = Some (t + minute)) /\
  Z.of_nat (length (addMissingMinutes l)) =
    Z.of_nat (length l) + missing_minutes l.
Proof.
  intro H. rewrite addMissingMinutes_scan.
  destruct l as [|p l].
  - split; [|reflexivity].
    intros a b [[|? ?] [? E]]; discriminate E.
  - apply (chain_consecutive whole_minutes_apart) in H.
    destruct (scan_contiguous l p H) as [Hc Hlen].
    split.
    + apply (chain_consecutive one_minute_apart). exact Hc.
    + cbn [scan app length]. cbn [length] in Hlen |- *. lia.
Qed.

Section Frame.

Lemma subsequence_refl {A} (l : list A) : subsequence l l.
Proof. induction l; constructor; assumption. Qed.

Lemma subsequence_behind {A} (pre l1 l2 : list A) :
  subsequence l1 l2 -> subsequence l1 (pre ++ l2).
Proof.
  intro H. induction pre as [|a pre IH]; simpl;
    [exact H | apply sub_skip, IH].
Qed.

Lemma scan_subsequence (l : list candle) :
  forall p, subsequence l (scan p l).
Proof.
  induction l as [|r l IH]; intro p; simpl.
  - constructor.
  - apply subsequence_behind, sub_take, IH.
Qed.

Lemma last_cons_default {A} (l : list A) :
  forall a d, last (a :: l) d = last l a.
Proof.
  induction l as [|b l IH]; intros a d; [reflexivity|].
  change (last (a :: b :: l) d) with (last (b :: l) d).
  rewrite !IH. reflexivity.
Qed.

Lemma last_behind {A} (pre : list A) (a : A) (l : list A) (d : A) :
  last (pre ++ a :: l) d = last (a :: l) d.
Proof.
  induction pre as [|b pre IH]; [reflexivity|].
  rewrite <- IH. simpl.
  destruct (pre ++ a :: l) eqn:E; [|reflexivity].
  destruct pre; discriminate E.
Qed.

Lemma scan_last (l : list candle) :
  forall p d, last (scan p l) d = last l d.
Proof.
  induction l as [|r l IH]; intros p d; [reflexivity|].
  cbn [scan]. rewrite last_behind, !last_cons_default. apply IH.
Qed.

Lemma fillers_In (q x : candle) (n : nat) :
  In x (fillers q n) -> exists i, 1 <= i /\ x = filler q i.
Proof.
  unfold fillers. intro H. apply in_map_iff in H.
  destruct H as (j & <- & Hj). apply in_seq in Hj.
  exists (Z.of_nat j). split; [lia | reflexivity].
Qed.

(** Every row the loop appends is an input row or a filler of the input
    row before it. *)
Lemma scan_provenance (l : list candle) :
  forall p x,
    In x (scan p l) ->
    In x l \/
    exists q i, (p = Some q \/ In q l) /\ 1 <= i /\ x = filler q i.
Proof.
  induction l as [|r l IH]; intros p x Hx; [destruct Hx|].
  cbn [scan] in Hx. apply in_app_or in Hx.
  destruct Hx as [Hx | [<- | Hx]].
  - right. destruct p as [q|]; [|destruct Hx].
    destruct (ts_diff_gt _ _ _) eqn:E; [|destruct Hx].
    unfold ts_diff_gt in E.
    destruct (datetime r) as [y|] eqn:Hr; [|discriminate E].
    destruct (datetime q) as [z|] eqn:Hq; [|discriminate E].
    apply Z.ltb_lt in E.
    rewrite (missing_rows_entered q r z y Hq Hr E) in Hx.
    destruct (fillers_In _ _ _ Hx) as (i & Hi & ->).
    exists q, i. auto.
  - left. left. reflexivity.
  - destruct (IH (Some r) x Hx) as [H | (q & i & [H | H] & Hi & ->)].
    + left. right. exact H.
    + injection H as <-. right. exists r, i. simpl. auto.
    + right. exists q, i. simpl. auto.
Qed.

End Frame.

(** C10.  The gap filler keeps every input record as it is and in the input
    order: the input is a subsequence of the output.  The output of the empty
    input is empty; the output starts with the first input record and ends
    with the last one, and every other record of the output is an input
    record or a filler derived from an input record. *)
Theorem input_records_are_kept (l : list candle) :
  subsequence l (addMissingMinutes l) /\
  addMissingMinutes [] = [] /\
  hd_error (addMissingMinutes l) = hd_error l /\
  (forall d, last (addMissingMinutes l) d = last l d) /\
  (forall x, In x (addMissingMinutes l) ->
     In x l \/ exists p i, In p l /\ 1 <= i /\ x = filler p i).
Proof.
  rewrite addMissingMinutes_scan. repeat split.
  - apply scan_subsequence.
  - destruct l; reflexivity.
  - apply scan_last.
  - intros x Hx.
    destruct (scan_provenance l None x Hx) as [H | (q & i & [H | H] & Hi & E)].
    + left. exact H.
    + discriminate H.
    + right. exists q, i. auto.
Qed.

(** ** The integrity check and the cleaning step *)

Section Integrity.

Lemma isna_int_true (c : option Z) : isna_int c = true <-> c = None.
Proof. destruct c; simpl; split; congruence. Qed.

Lemma isna_float_true (x : spec_float) : isna_float x = true <-> x = S754_nan.
Proof. destruct x; simpl; split; congruence. Qed.

Lemma all_na_true (r : Csv.row) : all_na r = true <-> all_empty r.
Proof.
  unfold all_na, all_empty.
  rewrite !andb_true_iff, !isna_int_true, !isna_float_true. tauto.
Qed.

Lemma any_map {A} (f : A -> bool) (l : list A) : any (map f l) = existsb f l.
Proof.
  unfold any. induction l as [|a l IH]; simpl; [|rewrite IH]; reflexivity.
Qed.

Lemma any_all_na (df : DataFrame) :
  any (map all_na df) = true <-> exists r, In r df /\ all_empty r.
Proof.
  rewrite any_map, existsb_exists.
  split; intros (r & Hr & H); exists r; split; auto; apply all_na_true; exact H.
Qed.

Lemma key_eqb_eq (a b : option Z) : key_eqb a b = true <-> a = b.
Proof.
  destruct a, b; simpl; rewrite ?Z.eqb_eq; split; congruence.
Qed.

Lemma seen_In (k : option Z) (seen : list (option Z)) :
  existsb (key_eqb k) seen = true <-> In k seen.
Proof.
  rewrite existsb_exists. split.
  - intros (x & Hx & E). apply key_eqb_eq in E. subst x. exact Hx.
  - intro H. exists k. split; [exact H | apply key_eqb_eq; reflexivity].
Qed.

(** A mark of [duplicated] is a key met before, among those seen at the
    start or at an earlier position. *)
Lemma any_duplicated_from (keys : list (option Z)) :
  forall seen,
    any (duplicated_from seen keys) = true <->
    exists j k, nth_error keys j = Some k /\
      (In k seen \/ exists i, (i < j)%nat /\ nth_error keys i = Some k).
Proof.
  induction keys as [|k0 ks IH]; intro seen.
  - split; [discriminate|]. intros ([|j] & k & H & _); discriminate H.
  - change (any (duplicated_from seen (k0 :: ks)))
      with (existsb (key_eqb k0) seen || any (duplicated_from (k0 :: seen) ks)).
    rewrite orb_true_iff, seen_In, IH. split.
    + intros [H | (j & k & Hj & [[<- | H] | (i & Hi & Hk)])].
      * exists 0%nat, k0. auto.
      * exists (S j), k0. split; [exact Hj|]. right. exists 0%nat.
        split; [lia | reflexivity].
      * exists (S j), k. auto.
      * exists (S j), k. split; [exact Hj|]. right. exists (S i).
        split; [lia | exact Hk].
    + intros ([|j] & k & Hj & H).
      * injection Hj as ->. destruct H as [H | (i & Hi & _)]; [auto | lia].
      * right. exists j, k. split; [exact Hj|].
        destruct H as [H | ([|i] & Hi & Hk)].
        -- left. right. exact H.
        -- injection Hk as ->. left. left. reflexivity.
        -- right. exists i. split; [lia | exact Hk].
Qed.

Lemma any_duplicated (df : DataFrame) :
  any (duplicated (map Csv.open_time df)) = true <-> has_duplicate_open_time df.
Proof.
  unfold duplicated, has_duplicate_open_time.
  rewrite any_duplicated_from. split.
  - intros (j & k & Hj & [[] | (i & Hi & Hk)]).
    rewrite nth_error_map in Hj, Hk.
    destruct (nth_error df j) as [r2|] eqn:E2; [|discriminate Hj].
    destruct (nth_error df i) as [r1|] eqn:E1; [|discriminate Hk].
    exists i, j, r1, r2. simpl in Hj, Hk. repeat split; congruence.
  - intros (i & j & r1 & r2 & Hij & H1 & H2 & E).
    exists j, (Csv.open_time r2). rewrite nth_error_map, H2.
    split; [reflexivity|]. right. exists i.
    rewrite nth_error_map, H1. simpl. rewrite E. auto.
Qed.

Lemma sum_nonneg (s : list bool) : 0 <= sum s.
Proof.
  induction s as [|b s IH]; [reflexivity|].
  change (sum (b :: s)) with ((if b then 1 else 0) + sum s).
  destruct b; lia.
Qed.

Lemma sum_any (s : list bool) : sum s <= 0 <-> any s = false.
Proof.
  induction s as [|b s IH]; [simpl; split; auto; lia|].
  pose proof (sum_nonneg s) as Hs.
  change (sum (b :: s)) with ((if b then 1 else 0) + sum s).
  change (any (b :: s)) with (b || any s).
  destruct b; cbn [orb].
  - split; [lia | discriminate].
  - rewrite <- IH. lia.
Qed.

(** The boolean selection of line 66 is [keep_first]. *)
Lemma select_keep_first (df : DataFrame) :
  forall seen,
    select df (map (fun b => Bool.eqb b false)
                   (duplicated_from seen (map Csv.open_time df)))
    = keep_first seen df.
Proof.
  induction df as [|r df IH]; intro seen; [reflexivity|].
  cbn [map duplicated_from select keep_first]. rewrite IH.
  destruct (existsb _ seen); reflexivity.
Qed.

Lemma keep_first_unmarked (df : DataFrame) :
  forall seen,
    any (duplicated_from seen (map Csv.open_time df)) = false ->
    keep_first seen df = df.
Proof.
  induction df as [|r df IH]; intros seen H; [reflexivity|].
  cbn [map duplicated_from] in H. unfold any in H. cbn [existsb] in H.
  apply orb_false_iff in H. destruct H as [H1 H2].
  cbn [keep_first]. rewrite H1, IH; [reflexivity | exact H2].
Qed.

Lemma duplicated_from_ext (keys : list (option Z)) :
  forall s1 s2,
    (forall k, existsb (key_eqb k) s1 = existsb (key_eqb k) s2) ->
    duplicated_from s1 keys = duplicated_from s2 keys.
Proof.
  induction keys as [|k0 ks IH]; intros s1 s2 H; [reflexivity|].
  cbn [duplicated_from]. rewrite (H k0). f_equal.
  apply IH. intro k. cbn [existsb]. rewrite (H k). reflexivity.
Qed.

(** After the selection no [open_time] is marked any more. *)
Lemma keep_first_no_duplicate (df : DataFrame) :
  forall seen,
    any (duplicated_from seen (map Csv.open_time (keep_first seen df))) = false.
Proof.
  induction df as [|r df IH]; intro seen; [reflexivity|].
  cbn [keep_first].
  destruct (existsb (key_eqb (Csv.open_time r)) seen) eqn:E.
  - rewrite (duplicated_from_ext _ seen (Csv.open_time r :: seen)); [apply IH|].
    intro k. cbn [existsb].
    destruct (key_eqb k (Csv.open_time r)) eqn:Ek; [|reflexivity].
    apply key_eqb_eq in Ek. subst k. rewrite E. reflexivity.
  - cbn [map duplicated_from]. unfold any. cbn [existsb].
    rewrite E. apply IH.
Qed.

(** What [quick_clean] computes: the first occurrences, in input order,
    unless one of them is an all-empty row. *)
Lemma quick_clean_spec (df : DataFrame) :
  quick_clean df =
  if existsb all_na (keep_first [] df)
  then Raised (AssertionError EmptyRow)
  else Returned (keep_first [] df).
Proof.
  unfold quick_clean.
  assert (E : (if 0 <? sum (duplicated (map Csv.open_time df))
               then select df (map (fun b => Bool.eqb b false)
                                   (duplicated (map Csv.open_time df)))
               else df) = keep_first [] df).
  { destruct (0 <? _) eqn:H.
    - apply select_keep_first.
    - symmetry. apply keep_first_unmarked. apply sum_any.
      apply Z.ltb_ge in H. exact H. }
  rewrite E. unfold assert_integrity.
  rewrite any_map.
  unfold duplicated. rewrite keep_first_no_duplicate.
  destruct (existsb all_na (keep_first [] df)); reflexivity.
Qed.

End Integrity.

(** C4.  The integrity check raises its assertion error exactly on the
    frames that hold two rows with the same [open_time] or a row whose cells
    are all missing; on every other frame it returns.  In both cases it
    leaves the frame as it found it. *)
Theorem integrity_check_fails_iff (D : DataFrame) :
  ((exists c, fst (assert_integrity D) = Raised (AssertionError c)) <->
     has_duplicate_open_time D \/ exists r, In r D /\ all_empty r) /\
  (fst (assert_integrity D) = Returned tt <->
     ~ (has_duplicate_open_time D \/ exists r, In r D /\ all_empty r)) /\
  snd (assert_integrity D) = D.
Proof.
  pose proof (any_all_na D) as He. pose proof (any_duplicated D) as Hd.
  unfold assert_integrity.
  destruct (any (map all_na D)) eqn:Ee; cbn [Bool.eqb negb fst snd].
  - repeat split; try discriminate.
    + intros _. right. apply He. reflexivity.
    + intros _. eexists. reflexivity.
    + intro H. exfalso. apply H. right. apply He. reflexivity.
  - destruct (any (duplicated (map Csv.open_time D))) eqn:Ed;
      cbn [Bool.eqb negb fst snd].
    + repeat split; try discriminate.
      * intros _. left. apply Hd. reflexivity.
      * intros _. eexists. reflexivity.
      * intro H. exfalso. apply H. left. apply Hd. reflexivity.
    + repeat split.
      * intros [c H]. discriminate H.
      * intros [H | H]; [apply Hd in H | apply He in H]; discriminate H.
      * intros _ [H | H]; [apply Hd in H | apply He in H]; discriminate H.
Qed.

(** C5.  Cleaning is idempotent: when [quick_clean] returns a frame,
    cleaning that frame again returns the same frame. *)
Theorem quick_clean_idempotent (D D' : DataFrame) :
  quick_clean D = Returned D' -> quick_clean D' = Returned D'.
Proof.
  rewrite !quick_clean_spec. intro H.
  destruct (existsb all_na (keep_first [] D)) eqn:E; [discriminate H|].
  injection H as <-.
  rewrite (keep_first_unmarked (keep_first [] D) [])
    by apply keep_first_no_duplicate.
  rewrite E. reflexivity.
Qed.

(** C5, on a frame with a repeated timestamp. *)
Lemma quick_clean_idempotent_witness :
  quick_clean [csv_row 0 59999 5 (quote 3 0); csv_row 0 59999 8 (quote 5 0);
               csv_row 60000 119999 2 (quote 7 0)]
    = Returned [csv_row 0 59999 5 (quote 3 0); csv_row 60000 119999 2 (quote 7 0)] /\
  quick_clean [csv_row 0 59999 5 (quote 3 0); csv_row 60000 119999 2 (quote 7 0)]
    = Returned [csv_row 0 59999 5 (quote 3 0); csv_row 60000 119999 2 (quote 7 0)].
Proof.
  split; [reflexivity|].
  apply (quick_clean_idempotent
           [csv_row 0 59999 5 (quote 3 0); csv_row 0 59999 8 (quote 5 0);
            csv_row 60000 119999 2 (quote 7 0)]).
  reflexivity.
Defined.

(** C6, as the claim states it, fails: on a frame made of one all-empty row
    the re-check at the end of [quick_clean] raises. *)
Lemma recheck_is_reachable :
  quick_clean [blank_row] = Raised (AssertionError EmptyRow).
Proof. reflexivity. Qed.

(** C6, amended.  For every frame the re-check at the end of [quick_clean]
    never fails on its duplicate-timestamp condition.  Its empty-row
    condition does fail, exactly when a row whose cells are all missing is
    among the rows left by the duplicate removal; otherwise [quick_clean]
    returns those rows. *)
Theorem recheck_fails_only_on_empty_row (D : DataFrame) :
  quick_clean D <> Raised (AssertionError DuplicateTimestamp) /\
  (quick_clean D = Raised (AssertionError EmptyRow) <->
     exists r, In r (keep_first [] D) /\ all_empty r) /\
  (quick_clean D = Returned (keep_first [] D) <->
     ~ exists r, In r (keep_first [] D) /\ all_empty r).
Proof.
  rewrite quick_clean_spec.
  pose proof (any_all_na (keep_first [] D)) as He. rewrite any_map in He.
  destruct (existsb all_na (keep_first [] D)).
  - repeat split; try discriminate.
    + intros _. apply He. reflexivity.
    + intro H. exfalso. apply H, He. reflexivity.
  - repeat split; try discriminate.
    + intro H. apply He in H. discriminate H.
    + intros _ H. apply He in H. discriminate H.
Qed.

(** C7.  On a frame with the timestamps 2, 1, 3 [quick_clean] returns the
    rows in input order, which is not descending; the descending frame that
    line 69 computes is not the one returned. *)
Theorem quick_clean_keeps_input_order :
  let D := [csv_row 120000 179999 4 (quote 3 0);
            csv_row 60000 119999 6 (quote 5 0);
            csv_row 180000 239999 9 (quote 7 0)] in
  quick_clean D = Returned D /\
  descending D = false /\
  sort_values_desc D = [csv_row 180000 239999 9 (quote 7 0);
                        csv_row 120000 179999 4 (quote 3 0);
                        csv_row 60000 119999 6 (quote 5 0)].
Proof. repeat split. Qed.

(** ** The compact cast and the pipeline *)

Section Traverse.

Context {A B : Type} (f : A -> outcome B).

Lemma traverse_Returned (l : list A) :
  forall l', traverse f l = Returned l' <->
             Forall2 (fun a b => f a = Returned b) l l'.
Proof.
  induction l as [|a l IH]; intro l'.
  - simpl. split.
    + intro H. injection H as <-. constructor.
    + intro H. inversion H. reflexivity.
  - cbn [traverse]. destruct (f a) as [b|e] eqn:Ea; cbn [bind].
    2: { split; [discriminate|]. intro H. inversion H; congruence. }
    destruct (traverse f l) as [bs|e] eqn:El; cbn [bind].
    2: { split; [discriminate|]. intro H.
         inversion H as [|? ? ? bs' _ Hbs]; subst.
         apply IH in Hbs. discriminate Hbs. }
    split.
    + intro H. injection H as <-. constructor; [exact Ea|].
      apply IH. reflexivity.
    + intro H. inversion H as [|? b' ? bs' Hb Hbs]; subst.
      apply IH in Hbs. congruence.
Qed.

End Traverse.

Section Cast.

Context (pd : Pandas) (dt : dtype).

Let rows_cast := Forall2 (fun r c => cast_row pd dt r = Returned c).

Let indexed_of (r : Pruned.row) : outcome (Timestamp * Pruned.row) :=
  t <- to_datetime_ms pd (Pruned.open_time r) ;; Returned (t, r).

Let cast_indexed (tr : Timestamp * Pruned.row) : outcome Compact.row :=
  astype_row pd dt (fst tr) (snd tr).

Lemma indexed_of_Returned (r : Pruned.row) (tr : Timestamp * Pruned.row) :
  indexed_of r = Returned tr <->
  to_datetime_ms pd (Pruned.open_time r) = Returned (fst tr) /\ snd tr = r.
Proof.
  unfold indexed_of. destruct (to_datetime_ms pd _) as [t|e]; cbn [bind].
  - split.
    + intro H. injection H as <-. auto.
    + intros [H <-]. injection H as ->. destruct tr; reflexivity.
  - split; [discriminate | intros [H _]; discriminate H].
Qed.

Lemma astype_row_trades (t : Timestamp) (r : Pruned.row) (c : Compact.row) :
  astype_row pd dt t r = Returned c ->
  isna_int (Pruned.number_of_trades r) = false.
Proof.
  unfold astype_row. destruct (Pruned.number_of_trades r); [reflexivity|].
  discriminate.
Qed.

(** [set_dtypes_compressed] works column by column; it returns exactly when
    each row, taken alone, can be cast, and then holds the cast rows. *)
Lemma set_dtypes_compressed_rows (df : list Pruned.row) :
  forall out,
    set_dtypes_compressed pd dt df = Returned out <-> rows_cast df out.
Proof.
  intro out. unfold set_dtypes_compressed, rows_cast.
  fold indexed_of. fold cast_indexed. split.
  - destruct (traverse indexed_of df) as [indexed|e] eqn:Ei; [|discriminate].
    cbn [bind]. destruct (existsb _ indexed); [discriminate|].
    intro Hc. apply traverse_Returned in Ei, Hc.
    revert out Hc. induction Ei as [|r tr df indexed Hr _ IH]; intros out Hc;
      inversion Hc as [|? c ? out' Hcr Hout]; subst; constructor.
    + apply indexed_of_Returned in Hr. destruct Hr as [Ht <-].
      unfold cast_row. rewrite Ht. exact Hcr.
    + apply IH. exact Hout.
  - intro H.
    assert (exists indexed,
              traverse indexed_of df = Returned indexed /\
              existsb (fun tr : Timestamp * Pruned.row =>
                         isna_int (Pruned.number_of_trades (snd tr))) indexed
              = false /\
              traverse cast_indexed indexed = Returned out)
      as (indexed & Hi & He & Hc).
    { induction H as [|r c df out Hr _ (indexed & Hi & He & Hc)].
      - exists []. repeat split.
      - unfold cast_row in Hr.
        destruct (to_datetime_ms pd (Pruned.open_time r)) as [t|e] eqn:Et;
          [|discriminate Hr].
        cbn [bind] in Hr. exists ((t, r) :: indexed). repeat split.
        + cbn [traverse]. unfold indexed_of at 1. rewrite Et. cbn [bind].
          rewrite Hi. reflexivity.
        + cbn [existsb snd]. rewrite (astype_row_trades t r c Hr). exact He.
        + cbn [traverse]. unfold cast_indexed at 1. cbn [fst snd].
          rewrite Hr. cbn [bind]. rewrite Hc. reflexivity. }
    rewrite Hi. cbn [bind]. rewrite He. exact Hc.
Qed.

Lemma rows_cast_In (df : list Pruned.row) (out : list Compact.row) :
  rows_cast df out ->
  (forall r, In r df -> exists c, cast_row pd dt r = Returned c) /\
  (forall c, In c out -> exists r, In r df /\ cast_row pd dt r = Returned c).
Proof.
  unfold rows_cast. intro H.
  induction H as [|r c df out Hc _ [IH1 IH2]]; split;
    try (intros ? Hnil; destruct Hnil; fail).
  - intros r' [<- | Hin]; [exists c; exact Hc | apply IH1, Hin].
  - intros c' [<- | Hin].
    + exists r. simpl. auto.
    + destruct (IH2 c' Hin) as (r' & Hr' & H'). exists r'. simpl. auto.
Qed.

Lemma rows_cast_total (df : list Pruned.row) :
  (forall r, In r df -> exists c, cast_row pd dt r = Returned c) ->
  exists out, rows_cast df out.
Proof.
  induction df as [|r df IH]; intro H.
  - exists []. constructor.
  - destruct (H r (or_introl eq_refl)) as [c Hc].
    destruct IH as [out Hout]; [intros x Hx; apply H; right; exact Hx|].
    exists (c :: out). constructor; assumption.
Qed.

End Cast.

Section Selection.

Lemma select_map {A} (f : A -> bool) (l : list A) :
  select l (map f l) = filter f l.
Proof.
  induction l as [|a l IH]; [reflexivity|].
  cbn [map select filter]. rewrite IH. reflexivity.
Qed.

(** The pipeline, with the selection of line 120 read as a filter. *)
Lemma write_raw_to_parquet_filter (pd : Pandas) (df : Frame) :
  write_raw_to_parquet pd df =
  cs <- set_dtypes_compressed pd (number_of_trades_dtype df)
          (map drop_columns (kept df)) ;;
  Returned (addMissingMinutes (map to_record cs)).
Proof.
  unfold write_raw_to_parquet, addMissingMinutesDf, kept, keeps.
  rewrite select_map. reflexivity.
Qed.

Lemma cast_row_int64 (pd : Pandas) (r : Pruned.row) (c : Compact.row) :
  cast_row pd int64 r = Returned c ->
  exists n, Pruned.number_of_trades r = Some n /\
            Compact.number_of_trades c = n mod 65536.
Proof.
  unfold cast_row, astype_row.
  destruct (to_datetime_ms pd _); [|discriminate].
  destruct (Pruned.number_of_trades r) as [n|]; [|discriminate].
  cbn [bind astype_uint16]. intro H. injection H as <-.
  exists n. split; reflexivity.
Qed.


End Selection.

(** C8, as the claim states it, fails: a frame whose column of trade counts
    is int64 and whose only row counts 70000 trades, more than sixteen
    unsigned bits hold, is cast without error, and the compact frame holds
    the count 4464. *)
Lemma out_of_range_trade_count_is_cast :
  65535 < 70000 /\
  exists out,
    set_dtypes_compressed nanosecond_pandas int64
      [drop_columns (csv_row 0 59999 70000 (quote 3 0))]
      = Returned out /\
    map Compact.number_of_trades out = [4464].
Proof. split; [reflexivity|]. eexists. split; reflexivity. Qed.

(** C8, amended.  Whatever the library and the dtype of the column, the
    compact cast fails when a trade count of the frame is missing.  A trade
    count outside the range of sixteen unsigned bits does not make it fail:
    when the column of trade counts is int64 (every count present, within 64
    signed bits) and the timestamps convert, the cast returns, and every
    trade count [n] is stored as [n mod 65536]. *)
Theorem compact_cast_wraps_trade_count (pd : Pandas) (df : list Pruned.row) :
  (forall dt,
     (exists r, In r df /\ Pruned.number_of_trades r = None) ->
     exists e, set_dtypes_compressed pd dt df = Raised e) /\
  ((forall r, In r df ->
      exists n, Pruned.number_of_trades r = Some n /\ - 2 ^ 63 <= n < 2 ^ 63) ->
   (forall r, In r df ->
      exists t, to_datetime_ms pd (Pruned.open_time r) = Returned t) ->
   exists out,
     set_dtypes_compressed pd int64 df = Returned out /\
     Forall2 (fun r c => exists n,
                Pruned.number_of_trades r = Some n /\
                Compact.number_of_trades c = n mod 65536) df out).
Proof.
  split.
  - intros dt (r & Hin & Hr).
    destruct (set_dtypes_compressed pd dt df) as [out|e] eqn:E;
      [|exists e; reflexivity].
    apply set_dtypes_compressed_rows, rows_cast_In in E.
    destruct E as [E _]. destruct (E r Hin) as [c Hc].
    unfold cast_row, astype_row in Hc. rewrite Hr in Hc.
    destruct (to_datetime_ms pd _); discriminate Hc.
  - intros Hn Ht.
    destruct (rows_cast_total pd int64 df) as [out Hout].
    { intros r Hr. destruct (Hn r Hr) as (n & En & _).
      destruct (Ht r Hr) as [t Et].
      unfold cast_row, astype_row. rewrite Et, En. cbn [bind astype_uint16].
      eexists. reflexivity. }
    exists out. split; [apply set_dtypes_compressed_rows; exact Hout|].
    revert Hout. apply Forall2_impl. intros r c. apply cast_row_int64.
Qed.

(** C8, amended, on a frame with the trade counts 70000 and 12. *)
Lemma compact_cast_wraps_trade_count_witness :
  exists out,
    set_dtypes_compressed nanosecond_pandas int64
      [drop_columns (csv_row 0 59999 70000 (quote 3 0));
       drop_columns (csv_row 60000 119999 12 (quote 5 0))]
      = Returned out /\
    Forall2 (fun r c => exists n,
               Pruned.number_of_trades r = Some n /\
               Compact.number_of_trades c = n mod 65536)
      [drop_columns (csv_row 0 59999 70000 (quote 3 0));
       drop_columns (csv_row 60000 119999 12 (quote 5 0))] out.
Proof.
  apply (proj2 (compact_cast_wraps_trade_count nanosecond_pandas _)).
  - intros r [<- | [<- | []]]; eexists; (split; [reflexivity|]);
      (vm_compute; split; [discriminate | reflexivity]).
  - intros r [<- | [<- | []]]; eexists; reflexivity.
Defined.



(** C1, on a record at minute 1 followed by a record at minute 4. *)
Lemma gap_is_filled_witness :
  let r1 := sample_candle 60000 (quote 5 0) in
  let r2 := sample_candle 240000 (quote 7 0) in
  datetime r1 = Some 60000 /\
  datetime r2 = Some (60000 + 3 * minute) /\
  exists before synthesized,
    addMissingMinutes ([sample_candle 0 (quote 3 0)] ++ r1 :: r2 :: []) =
      before ++ r1 :: synthesized ++ r2 :: scan (Some r2) [] /\
    addMissingMinutes ([sample_candle 0 (quote 3 0)] ++ [r1]) = before ++ [r1] /\
    Z.of_nat (length synthesized) = 3 - 1 /\
    forall i, 1 <= i <= 3 - 1 ->
      nth_error synthesized (Z.to_nat (i - 1)) = Some {|
        datetime := Some (60000 + i * minute);
        open := close r1;
        high := close r1;
        low := close r1;
        close := close r1;
        volume := PyInt 0;
        quote_asset_volume := PyInt 0;
        number_of_trades := PyInt 0;
        taker_buy_base_asset_volume := PyInt 0;
        taker_buy_quote_asset_volume := PyInt 0
      |}.
Proof.
  intros r1 r2. split; [reflexivity|]. split; [reflexivity|].
  apply (gap_is_filled [sample_candle 0 (quote 3 0)] [] r1 r2 60000 3);
    [reflexivity | reflexivity | lia].
Defined.

(** C2, on two records at the same minute. *)
Lemma no_gap_no_filler_witness :
  addMissingMinutes [sample_candle 60000 (quote 5 0);
                     sample_candle 60000 (quote 7 0)]
  = [sample_candle 60000 (quote 5 0); sample_candle 60000 (quote 7 0)].
Proof.
  destruct (no_gap_no_filler [] [] (sample_candle 60000 (quote 5 0))
              (sample_candle 60000 (quote 7 0)) 60000 0)
    as [(before & Hout & Hb) _]; [reflexivity | reflexivity | lia |].
  destruct before as [|x before]; [exact Hout|].
  destruct before; discriminate Hb.
Defined.

(** C3, on records at the minutes 0, 1 and 4: five records come out. *)
Lemma filled_sequence_has_no_holes_witness :
  Z.of_nat (length (addMissingMinutes [sample_candle 0 (quote 3 0);
                                       sample_candle 60000 (quote 5 0);
                                       sample_candle 240000 (quote 7 0)]))
  = 3 + 2.
Proof.
  apply (filled_sequence_has_no_holes [sample_candle 0 (quote 3 0);
                                       sample_candle 60000 (quote 5 0);
                                       sample_candle 240000 (quote 7 0)]).
  apply (chain_consecutive whole_minutes_apart). simpl.
  split; [exists 0, 1 | split; [exists 60000, 3 | exact I]];
    repeat split; lia.
Defined.

(** C4, on a frame whose two rows open at the same time: the check raises
    and leaves the frame alone. *)
Lemma integrity_check_fails_iff_witness :
  let D := [csv_row 0 59999 5 (quote 3 0); csv_row 0 59999 8 (quote 5 0)] in
  (exists c, fst (assert_integrity D) = Raised (AssertionError c)) /\
  snd (assert_integrity D) = D.
Proof.
  intro D. split.
  - apply (proj1 (integrity_check_fails_iff D)). left.
    exists 0%nat, 1%nat, (csv_row 0 59999 5 (quote 3 0)),
      (csv_row 0 59999 8 (quote 5 0)).
    repeat split. lia.
  - apply (integrity_check_fails_iff D).
Defined.

(** C10, on records at the minutes 0 and 3. *)
Lemma input_records_are_kept_witness :
  let l := [sample_candle 0 (quote 3 0); sample_candle 180000 (quote 5 0)] in
  subsequence l (addMissingMinutes l) /\
  length (addMissingMinutes l) = 4%nat.
Proof.
  intro l. split; [|reflexivity].
  apply (input_records_are_kept l).
Defined.

(** ** Further properties of the gap filler *)

Section GapFillerOutput.

Variable R : candle -> candle -> Prop.

(** [R] holds from a record that lies [i] minutes after [p] to the next
    filler of [p]. *)
Hypothesis R_filler :
  forall p a x i,
    datetime p = Some x ->
    datetime a = Some (x + Z.of_nat i * minute) ->
    R a (filler p (Z.of_nat (S i))).

(** [R] holds from the last minute strictly before [r] to [r]. *)
Hypothesis R_last :
  forall r b x y,
    datetime r = Some y ->
    minute < y - x ->
    datetime b = Some (x + (y - x - 1) / minute * minute) ->
    R b r.

Lemma chain_through_fillers (p r : candle) (rest : list candle) (x : Z) :
  datetime p = Some x ->
  chain R (r :: rest) ->
  forall (n i : nat) (a : candle),
    datetime a = Some (x + Z.of_nat i * minute) ->
    (forall b, datetime b = Some (x + Z.of_nat (i + n) * minute) -> R b r) ->
    chain R (a :: map (fun j => filler p (Z.of_nat j)) (seq (S i) n) ++ r :: rest).
Proof.
  intros Hp Hrest n.
  induction n as [|n IH]; intros i a Ha Hlast.
  - simpl. split; [|exact Hrest].
    apply Hlast. rewrite Nat.add_0_r. exact Ha.
  - cbn [seq map app]. split.
    + apply (R_filler p a x i Hp Ha).
    + apply IH.
      * unfold filler. rewrite Hp. reflexivity.
      * intros b Hb. apply Hlast. rewrite Hb. do 3 f_equal. lia.
Qed.

(** If [R] holds between input neighbours that the loop leaves next to
    each other, it holds between all neighbours of what the loop appends. *)
Lemma scan_chain (Q : candle -> candle -> Prop) :
  (forall p r, Q p r ->
     ts_diff_gt (datetime r) (datetime p) minute = false -> R p r) ->
  forall l p, chain Q (p :: l) -> chain R (p :: scan (Some p) l).
Proof.
  intros HQ l. induction l as [|r l IH]; intros p Hl; [exact I|].
  destruct Hl as [Hpr Hl]. specialize (IH r Hl).
  cbn [scan].
  destruct (ts_diff_gt (datetime r) (datetime p) minute) eqn:E.
  - unfold ts_diff_gt in E.
    destruct (datetime r) as [y|] eqn:Hr; [|discriminate E].
    destruct (datetime p) as [x|] eqn:Hp; [|discriminate E].
    apply Z.ltb_lt in E.
    rewrite (missing_rows_entered p r x y Hp Hr E).
    apply (chain_through_fillers p r (scan (Some r) l) x Hp IH
             (Z.to_nat ((y - x - 1) / minute)) 0 p).
    + rewrite Hp. f_equal. lia.
    + intros b Hb. apply (R_last r b x y Hr E).
      rewrite Hb. cbn [Nat.add]. rewrite Z2Nat.id; [reflexivity|].
      apply Z.div_pos; unfold minute in *; lia.
  - split; [|exact IH]. apply HQ; assumption.
Qed.

End GapFillerOutput.

Section GapFillerFacts.

Lemma minute_floor (x y : Z) :
  minute < y - x ->
  0 < y - (x + (y - x - 1) / minute * minute) <= minute.
Proof.
  intro H. assert (Hm : 0 < minute) by (unfold minute; lia).
  pose proof (Z.div_mod (y - x - 1) minute ltac:(lia)) as Hdiv.
  pose proof (Z.mod_pos_bound (y - x - 1) minute Hm) as Hmod.
  lia.
Qed.

Lemma scan_no_gap (l : list candle) :
  forall p, chain no_gap (p :: scan (Some p) l).
Proof.
  intro p.
  apply (scan_chain no_gap) with (Q := fun _ _ => True).
  - intros q a x i Hq Ha x' y' Hx' Hy'.
    unfold filler in Hy'. rewrite Hq in Hy'. cbn [datetime ts_add] in Hy'.
    rewrite Ha in Hx'.
    assert (x' = x + Z.of_nat i * minute) as -> by congruence.
    assert (y' = x + Z.of_nat (S i) * minute) as -> by congruence.
    lia.
  - intros r b x y Hr Hgap Hb x' y' Hx' Hy'.
    rewrite Hr in Hy'. rewrite Hb in Hx'.
    assert (y' = y) as -> by congruence.
    assert (x' = x + (y - x - 1) / minute * minute) as -> by congruence.
    apply (minute_floor x y Hgap).
  - intros q r _ E x y Hx Hy. rewrite Hx, Hy in E. simpl in E.
    apply Z.ltb_ge in E. exact E.
  - generalize p. induction l as [|a l IH]; intro q; [exact I|].
    split; [exact I | apply IH].
Qed.

Lemma scan_fixed (l : list candle) :
  forall p, chain no_gap (p :: l) -> scan (Some p) l = l.
Proof.
  induction l as [|r l IH]; intros p Hl; [reflexivity|].
  destruct Hl as [Hpr Hl]. cbn [scan]. rewrite (IH r Hl).
  replace (ts_diff_gt (datetime r) (datetime p) minute) with false;
    [reflexivity|].
  unfold ts_diff_gt.
  destruct (datetime r) as [y|] eqn:Hr; [|reflexivity].
  destruct (datetime p) as [x|] eqn:Hp; [|reflexivity].
  symmetry. apply Z.ltb_ge. apply (Hpr x y Hp Hr).
Qed.

Lemma scan_earlier (l : list candle) :
  forall p, chain earlier (p :: l) -> chain earlier (p :: scan (Some p) l).
Proof.
  apply (scan_chain earlier).
  - intros q a x i Hq Ha. exists (x + Z.of_nat i * minute).
    eexists. split; [exact Ha|]. split.
    + unfold filler. rewrite Hq. reflexivity.
    + unfold minute. lia.
  - intros r b x y Hr Hgap Hb. eexists. exists y.
    split; [exact Hb|]. split; [exact Hr|].
    pose proof (minute_floor x y Hgap). lia.
  - intros q r H _. exact H.
Qed.

End GapFillerFacts.

(** X1.  Whatever the input, sorted or not, aligned to minutes or not, of
    two neighbours of the output that both carry a timestamp the second is at
    most one minute later than the first: its timestamp minus the first's is
    at most one minute.  (It may be earlier by any amount when the input is
    not sorted.) *)
Theorem output_gaps_at_most_a_minute (l : list candle) (a b : candle) (x y : Z) :
  consecutive (addMissingMinutes l) a b ->
  datetime a = Some x ->
  datetime b = Some y ->
  y - x <= minute.
Proof.
  intros Hab Hx Hy. rewrite addMissingMinutes_scan in Hab.
  destruct l as [|p l].
  - destruct Hab as ([|? ?] & ? & E); discriminate E.
  - pose proof (scan_no_gap l p) as H.
    apply (proj1 (chain_consecutive no_gap _) H a b Hab x y Hx Hy).
Qed.

Lemma output_gaps_at_most_a_minute_witness :
  150000 - 120000 <= minute.
Proof.
  apply (output_gaps_at_most_a_minute
           [sample_candle 0 (quote 3 0); sample_candle 150000 (quote 5 0)]
           (filler (sample_candle 0 (quote 3 0)) 2)
           (sample_candle 150000 (quote 5 0))).
  - exists [sample_candle 0 (quote 3 0); filler (sample_candle 0 (quote 3 0)) 1], [].
    reflexivity.
  - reflexivity.
  - reflexivity.
Defined.

(** X2.  Filling gaps twice is the same as filling them once, for every
    input. *)
Theorem gap_filling_is_idempotent (l : list candle) :
  addMissingMinutes (addMissingMinutes l) = addMissingMinutes l.
Proof.
  rewrite (addMissingMinutes_scan l).
  destruct l as [|p l]; [reflexivity|].
  rewrite addMissingMinutes_scan. cbn [scan app]. f_equal.
  apply scan_fixed, scan_no_gap.
Qed.

(** X3.  Between two neighbouring input records more than a minute apart,
    whole minutes or not, the filler puts one record for every whole minute
    after the first that is strictly before the second; the last of them is at
    most one minute before the second record.  Both sides of the pair are
    filled as if they were inputs of their own. *)
Theorem gap_of_any_width (pre post : list candle) (r1 r2 : candle) (t t' : Z) :
  datetime r1 = Some t ->
  datetime r2 = Some t' ->
  minute < t' - t ->
  let n := (t' - t - 1) / minute in
  addMissingMinutes (pre ++ r1 :: r2 :: post) =
    addMissingMinutes (pre ++ [r1]) ++ fillers r1 (Z.to_nat n)
      ++ addMissingMinutes (r2 :: post) /\
  1 <= n /\
  0 < t' - (t + n * minute) <= minute.
Proof.
  intros H1 H2 Hgap n. split.
  - rewrite !addMissingMinutes_scan, scan_app. f_equal.
    cbn [scan app].
    replace (ts_diff_gt (datetime r2) (datetime r1) minute) with true.
    + rewrite (missing_rows_entered r1 r2 t t' H1 H2 Hgap). reflexivity.
    + rewrite H1, H2. simpl. symmetry. apply Z.ltb_lt. exact Hgap.
  - split; [|apply (minute_floor t t' Hgap)].
    apply Z.div_le_lower_bound; unfold minute in *; lia.
Qed.

(** X3, on two records ninety seconds apart: one filler, thirty seconds
    before the second record. *)
Lemma gap_of_any_width_witness :
  addMissingMinutes ([] ++ sample_candle 0 (quote 3 0) ::
                           sample_candle 90000 (quote 5 0) :: []) =
    addMissingMinutes ([] ++ [sample_candle 0 (quote 3 0)])
      ++ fillers (sample_candle 0 (quote 3 0)) 1
      ++ addMissingMinutes [sample_candle 90000 (quote 5 0)].
Proof.
  apply (gap_of_any_width [] [] (sample_candle 0 (quote 3 0))
           (sample_candle 90000 (quote 5 0)) 0 90000);
    [reflexivity | reflexivity | unfold minute; lia].
Defined.

(** X4.  When the input is strictly ascending by timestamp, so is the
    output. *)
Theorem ascending_order_is_kept (l : list candle) :
  (forall a b, consecutive l a b -> earlier a b) ->
  forall a b, consecutive (addMissingMinutes l) a b -> earlier a b.
Proof.
  intro H. rewrite addMissingMinutes_scan.
  destruct l as [|p l].
  - intros a b ([|? ?] & ? & E); discriminate E.
  - apply (chain_consecutive earlier) in H.
    apply (chain_consecutive earlier (p :: scan (Some p) l)).
    apply scan_earlier, H.
Qed.

Lemma ascending_order_is_kept_witness :
  earlier (filler (sample_candle 0 (quote 3 0)) 1)
          (sample_candle 90000 (quote 5 0)).
Proof.
  apply (ascending_order_is_kept
           [sample_candle 0 (quote 3 0); sample_candle 90000 (quote 5 0)]).
  - apply (chain_consecutive earlier). split; [|exact I].
    exists 0, 90000. repeat split.
  - exists [sample_candle 0 (quote 3 0)], []. reflexivity.
Defined.

(** X5.  The input can be filled in two pieces that share one record: the
    output is the output of the first piece followed by the output of the
    second piece without its first record. *)
Theorem gap_filling_by_pieces (l1 l2 : list candle) (r : candle) :
  addMissingMinutes (l1 ++ r :: l2) =
    addMissingMinutes (l1 ++ [r]) ++ tl (addMissingMinutes (r :: l2)).
Proof.
  rewrite !addMissingMinutes_scan, scan_app. reflexivity.
Qed.

(** X6.  A record without a timestamp never gets fillers around it: next to
    a neighbour, one of them being NaT, nothing is inserted, and both sides
    are filled as inputs of their own. *)
Theorem no_filler_next_to_NaT (pre post : list candle) (r1 r2 : candle) :
  datetime r1 = NaT \/ datetime r2 = NaT ->
  addMissingMinutes (pre ++ r1 :: r2 :: post) =
    addMissingMinutes (pre ++ [r1]) ++ addMissingMinutes (r2 :: post).
Proof.
  intro H. rewrite !addMissingMinutes_scan, scan_app. f_equal.
  cbn [scan app].
  replace (ts_diff_gt (datetime r2) (datetime r1) minute) with false;
    [reflexivity|].
  unfold ts_diff_gt. destruct H as [-> | ->]; [|reflexivity].
  destruct (datetime r2); reflexivity.
Qed.

Lemma no_filler_next_to_NaT_witness :
  addMissingMinutes ([] ++ undated_candle (quote 5 0) ::
                           sample_candle 600000 (quote 7 0) :: []) =
    addMissingMinutes ([] ++ [undated_candle (quote 5 0)])
      ++ addMissingMinutes [sample_candle 600000 (quote 7 0)].
Proof.
  apply (no_filler_next_to_NaT [] [] (undated_candle (quote 5 0))
           (sample_candle 600000 (quote 7 0))).
  left. reflexivity.
Defined.

(** ** Further properties of the cleaning step *)

Section Cleaning.

Lemma keep_first_keys (df : DataFrame) :
  forall seen,
    NoDup (map Csv.open_time (keep_first seen df)) /\
    (forall k, In k (map Csv.open_time (keep_first seen df)) -> ~ In k seen).
Proof.
  induction df as [|r df IH]; intro seen.
  - split; [constructor | intros k []].
  - cbn [keep_first].
    destruct (IH (Csv.open_time r :: seen)) as [Hnd Hout].
    destruct (existsb (key_eqb (Csv.open_time r)) seen) eqn:E.
    + split; [exact Hnd|].
      intros k Hk Hs. apply (Hout k Hk). right. exact Hs.
    + split.
      * cbn [map]. constructor; [|exact Hnd].
        intro Hk. apply (Hout _ Hk). left. reflexivity.
      * intros k [<- | Hk] Hs.
        -- apply seen_In in Hs. congruence.
        -- apply (Hout k Hk). right. exact Hs.
Qed.

Lemma keep_first_subsequence (df : DataFrame) :
  forall seen, subsequence (keep_first seen df) df.
Proof.
  induction df as [|r df IH]; intro seen; [constructor|].
  cbn [keep_first]. destruct (existsb _ seen); constructor; apply IH.
Qed.

Lemma keep_first_covers (df : DataFrame) :
  forall seen r,
    In r df ->
    In (Csv.open_time r) seen \/
    In (Csv.open_time r) (map Csv.open_time (keep_first seen df)).
Proof.
  induction df as [|a df IH]; intros seen r Hr; [destruct Hr|].
  cbn [keep_first].
  destruct (existsb (key_eqb (Csv.open_time a)) seen) eqn:E.
  - destruct Hr as [<- | Hr].
    + left. apply seen_In. exact E.
    + destruct (IH (Csv.open_time a :: seen) r Hr) as [[H | H] | H]; auto.
      left. rewrite <- H. apply seen_In. exact E.
  - cbn [map]. destruct Hr as [<- | Hr].
    + right. left. reflexivity.
    + destruct (IH (Csv.open_time a :: seen) r Hr) as [[H | H] | H].
      * right. left. exact H.
      * left. exact H.
      * right. right. exact H.
Qed.

Lemma keep_first_first (df : DataFrame) :
  forall seen r,
    In r (keep_first seen df) ->
    exists pre post,
      df = pre ++ r :: post /\ ~ In (Csv.open_time r) (map Csv.open_time pre).
Proof.
  induction df as [|a df IH]; intros seen r Hr; [destruct Hr|].
  cbn [keep_first] in Hr.
  assert (Hrest : In r (keep_first (Csv.open_time a :: seen) df) ->
            exists pre post, a :: df = pre ++ r :: post /\
              ~ In (Csv.open_time r) (map Csv.open_time pre)).
  { intro H. destruct (IH _ r H) as (pre & post & -> & Hpre).
    exists (a :: pre), post. split; [reflexivity|].
    intros [Ha | Hin]; [|exact (Hpre Hin)].
    destruct (keep_first_keys (pre ++ r :: post) (Csv.open_time a :: seen))
      as [_ Hout].
    apply (Hout (Csv.open_time r)); [apply in_map; exact H|].
    left. exact Ha. }
  destruct (existsb (key_eqb (Csv.open_time a)) seen); [exact (Hrest Hr)|].
  destruct Hr as [<- | Hr]; [|exact (Hrest Hr)].
  exists [], df. split; [reflexivity | intros []].
Qed.

Lemma keep_first_length (df : DataFrame) :
  forall seen,
    Z.of_nat (length (keep_first seen df))
    + sum (duplicated_from seen (map Csv.open_time df))
    = Z.of_nat (length df).
Proof.
  induction df as [|r df IH]; intro seen; [reflexivity|].
  cbn [keep_first map duplicated_from].
  change (sum (?b :: ?s)) with ((if b then 1 else 0) + sum s).
  specialize (IH (Csv.open_time r :: seen)).
  destruct (existsb (key_eqb (Csv.open_time r)) seen); cbn [length]; lia.
Qed.

Lemma quick_clean_returned (D out : DataFrame) :
  quick_clean D = Returned out ->
  out = keep_first [] D /\ existsb all_na out = false.
Proof.
  rewrite quick_clean_spec.
  destruct (existsb all_na (keep_first [] D)) eqn:E; [discriminate|].
  intro H. injection H as <-. auto.
Qed.

Lemma unmarked_NoDup (keys : list (option Z)) :
  forall seen,
    any (duplicated_from seen keys) = false <->
    NoDup keys /\ (forall k, In k keys -> ~ In k seen).
Proof.
  induction keys as [|k0 ks IH]; intro seen.
  - split; [split; [constructor | intros k []] | reflexivity].
  - change (any (duplicated_from seen (k0 :: ks)))
      with (existsb (key_eqb k0) seen || any (duplicated_from (k0 :: seen) ks)).
    rewrite orb_false_iff, IH. split.
    + intros [H0 [Hnd Hout]]. split.
      * constructor; [|exact Hnd].
        intro H. apply (Hout k0 H). left. reflexivity.
      * intros k [<- | Hk] Hs.
        -- apply seen_In in Hs. congruence.
        -- apply (Hout k Hk). right. exact Hs.
    + intros [Hnd Hout]. inversion Hnd as [|? ? Hk0 Hks]; subst.
      split; [|split; [exact Hks|]].
      * destruct (existsb (key_eqb k0) seen) eqn:E; [|reflexivity].
        apply seen_In in E. exfalso. apply (Hout k0); [left; reflexivity | exact E].
      * intros k Hk [<- | Hs]; [exact (Hk0 Hk)|].
        apply (Hout k); [right; exact Hk | exact Hs].
Qed.

Lemma select_In {A} (l : list A) :
  forall mask x, In x (select l mask) -> In x l.
Proof.
  induction l as [|a l IH]; intros [|[|] mask] x H; try destruct H.
  - left. assumption.
  - right. apply (IH mask). assumption.
  - right. apply (IH mask). exact H.
Qed.

Lemma select_NoDup {A B} (f : A -> B) (l : list A) :
  forall mask, NoDup (map f l) -> NoDup (map f (select l mask)).
Proof.
  induction l as [|a l IH]; intros [|[|] mask] H; try constructor;
    inversion H as [|? ? Ha Hl]; subst.
  - intro Hin. apply Ha. apply in_map_iff in Hin.
    destruct Hin as (x & E & Hx). rewrite <- E.
    apply in_map. apply (select_In l mask). exact Hx.
  - apply IH. exact Hl.
  - apply IH. exact Hl.
Qed.

End Cleaning.

(** X7.  When [quick_clean] returns, the returned rows are input rows in
    input order, no two of them share an [open_time], every [open_time] of
    the input is still there, each returned row is the first input row with
    its [open_time], and none of them is all-empty. *)
Theorem quick_clean_keeps_first_of_each_key (D out : DataFrame) :
  quick_clean D = Returned out ->
  subsequence out D /\
  NoDup (map Csv.open_time out) /\
  (forall r, In r D -> In (Csv.open_time r) (map Csv.open_time out)) /\
  (forall r, In r out ->
     exists pre post,
       D = pre ++ r :: post /\ ~ In (Csv.open_time r) (map Csv.open_time pre)) /\
  (forall r, In r out -> ~ all_empty r).
Proof.
  intro H. apply quick_clean_returned in H. destruct H as [-> Hna].
  repeat split.
  - apply keep_first_subsequence.
  - apply keep_first_keys.
  - intros r Hr. destruct (keep_first_covers D [] r Hr) as [[] | H]. exact H.
  - intros r Hr. apply (keep_first_first D [] r Hr).
  - intros r Hr He. apply all_na_true in He.
    assert (existsb all_na (keep_first [] D) = true); [|congruence].
    apply existsb_exists. exists r. auto.
Qed.

Lemma quick_clean_keeps_first_of_each_key_witness :
  NoDup (map Csv.open_time
           [csv_row 0 59999 5 (quote 3 0); csv_row 60000 119999 2 (quote 7 0)]).
Proof.
  apply (quick_clean_keeps_first_of_each_key
           [csv_row 0 59999 5 (quote 3 0); csv_row 0 59999 8 (quote 5 0);
            csv_row 60000 119999 2 (quote 7 0)]).
  reflexivity.
Defined.

(** X8.  [quick_clean] returns its input unchanged exactly on the frames
    that pass [assert_integrity]. *)
Theorem quick_clean_fixes_sound_frames (D : DataFrame) :
  quick_clean D = Returned D <-> fst (assert_integrity D) = Returned tt.
Proof.
  rewrite quick_clean_spec. unfold assert_integrity, duplicated.
  rewrite any_map. split.
  - destruct (existsb all_na (keep_first [] D)) eqn:E; [discriminate|].
    intro H. injection H as H.
    pose proof (keep_first_no_duplicate D []) as Hd.
    rewrite H in E, Hd. rewrite E, Hd. reflexivity.
  - destruct (existsb all_na D) eqn:E; [discriminate|].
    destruct (any (duplicated_from [] (map Csv.open_time D))) eqn:Ed;
      [discriminate|].
    intros _. rewrite (keep_first_unmarked D [] Ed), E. reflexivity.
Qed.

(** X9.  When [quick_clean] returns, it has dropped as many rows as line 64
    counted duplicated timestamps. *)
Theorem quick_clean_row_count (D out : DataFrame) :
  quick_clean D = Returned out ->
  Z.of_nat (length out) =
    Z.of_nat (length D) - sum (duplicated (map Csv.open_time D)).
Proof.
  intro H. apply quick_clean_returned in H. destruct H as [-> _].
  pose proof (keep_first_length D []) as H. unfold duplicated. lia.
Qed.

Lemma quick_clean_row_count_witness :
  Z.of_nat (length [csv_row 0 59999 5 (quote 3 0);
                    csv_row 60000 119999 2 (quote 7 0)]) =
  Z.of_nat (length [csv_row 0 59999 5 (quote 3 0);
                    csv_row 0 59999 8 (quote 5 0);
                    csv_row 60000 119999 2 (quote 7 0)])
  - sum (duplicated (map Csv.open_time
                       [csv_row 0 59999 5 (quote 3 0);
                        csv_row 0 59999 8 (quote 5 0);
                        csv_row 60000 119999 2 (quote 7 0)])).
Proof.
  apply (quick_clean_row_count
           [csv_row 0 59999 5 (quote 3 0); csv_row 0 59999 8 (quote 5 0);
            csv_row 60000 119999 2 (quote 7 0)]).
  reflexivity.
Defined.

(** X10.  A frame that passes [assert_integrity] still passes it after any
    boolean selection of its rows. *)
Theorem integrity_survives_selection (D : DataFrame) (mask : list bool) :
  fst (assert_integrity D) = Returned tt ->
  fst (assert_integrity (select D mask)) = Returned tt.
Proof.
  unfold assert_integrity, duplicated. rewrite !any_map.
  destruct (existsb all_na D) eqn:E; [discriminate|].
  destruct (any (duplicated_from [] (map Csv.open_time D))) eqn:Ed;
    [discriminate|].
  intros _.
  replace (existsb all_na (select D mask)) with false.
  - replace (any (duplicated_from [] (map Csv.open_time (select D mask))))
      with false; [reflexivity|].
    symmetry. apply unmarked_NoDup. split; [|intros k _ []].
    apply select_NoDup. apply (unmarked_NoDup _ []). exact Ed.
  - symmetry. destruct (existsb all_na (select D mask)) eqn:Es; [|reflexivity].
    apply existsb_exists in Es. destruct Es as (r & Hr & Hna).
    rewrite <- E. symmetry. apply existsb_exists. exists r.
    split; [apply (select_In D mask r Hr) | exact Hna].
Qed.

Lemma integrity_survives_selection_witness :
  fst (assert_integrity
         (select [csv_row 0 59999 5 (quote 3 0);
                  csv_row 60000 119999 2 (quote 7 0)] [false; true]))
  = Returned tt.
Proof.
  apply (integrity_survives_selection
           [csv_row 0 59999 5 (quote 3 0); csv_row 60000 119999 2 (quote 7 0)]).
  reflexivity.
Defined.

(** ** Further properties of the compact cast and of the pipeline *)

Section CompactCast.

Lemma shr_1_nonneg (mrs : shr_record) :
  0 <= shr_m mrs -> 0 <= shr_m (shr_1 mrs).
Proof.
  destruct mrs as [m r s]. destruct m as [|[p|p|]|p]; simpl; lia.
Qed.

Lemma iter_shr_1_nonneg (p : positive) :
  forall mrs, 0 <= shr_m mrs -> 0 <= shr_m (iter_pos shr_1 p mrs).
Proof.
  induction p as [p IH|p IH|]; intros mrs H; simpl.
  - apply IH, IH, shr_1_nonneg, H.
  - apply IH, IH, H.
  - apply shr_1_nonneg, H.
Qed.

Lemma shr_fexp_nonneg (prec emax m e : Z) (l : location) :
  0 <= m -> 0 <= shr_m (fst (shr_fexp prec emax m e l)).
Proof.
  intro H. unfold shr_fexp, shr.
  assert (H0 : 0 <= shr_m (shr_record_of_loc m l))
    by (destruct l as [|[| |]]; exact H).
  destruct (fexp prec emax (Zdigits2 m + e) - e); simpl; try exact H0.
  apply iter_shr_1_nonneg, H0.
Qed.

Lemma round_nearest_even_nonneg (m : Z) (l : location) :
  0 <= m -> 0 <= round_nearest_even m l.
Proof.
  intro H. destruct l as [|[| |]]; simpl; try lia.
  destruct (Z.even m); lia.
Qed.

(** Rounding a non-negative mantissa gives a zero, a finite number or an
    infinity of the sign asked for, never NaN. *)
Lemma binary_round_aux_sign (prec emax : Z) (sx : bool) (mx ex : Z)
    (lx : location) :
  0 <= mx ->
  sign_of (binary_round_aux prec emax sx mx ex lx) = Some sx.
Proof.
  intro H. unfold binary_round_aux.
  pose proof (shr_fexp_nonneg prec emax mx ex lx H) as H1.
  destruct (shr_fexp prec emax mx ex lx) as [mrs' e'].
  cbn [fst] in H1.
  pose proof (shr_fexp_nonneg prec emax
                (round_nearest_even (shr_m mrs') (loc_of_shr_record mrs'))
                e' loc_Exact
                (round_nearest_even_nonneg _ _ H1)) as H2.
  destruct (shr_fexp prec emax _ e' loc_Exact) as [mrs'' e''].
  cbn [fst] in H2.
  destruct (shr_m mrs'') as [|m|m]; [reflexivity | | lia].
  destruct (e'' <=? emax - prec); reflexivity.
Qed.

Lemma astype_float32_sign (x : spec_float) :
  sign_of (astype_float32 x) = sign_of x.
Proof.
  destruct x as [s|s| |s m e]; try reflexivity.
  unfold astype_float32, SFldexp, binary_round.
  destruct (shl_align m (e + 0) _) as [mz ez].
  apply binary_round_aux_sign. lia.
Qed.

Lemma isna_float_sign (x : spec_float) :
  isna_float x = match sign_of x with None => true | Some _ => false end.
Proof. destruct x; reflexivity. Qed.

Lemma to_datetime_ms_Returned (pd : Pandas) (ms : Z) (t : Timestamp) :
  to_datetime_ms pd (Some ms) = Returned t ->
  (t = NaT /\ ms = - 2 ^ 63) \/ t = Some ms.
Proof.
  unfold to_datetime_ms.
  destruct (ms =? _) eqn:Emin.
  - intro H. injection H as <-. left. apply Z.eqb_eq in Emin. auto.
  - destruct (datetime_in_bounds pd ms); [|discriminate].
    intro H. injection H as <-. right. reflexivity.
Qed.

(** The fields of a row that was cast. *)
Lemma cast_row_fields (pd : Pandas) (dt : dtype) (r : Pruned.row)
    (c : Compact.row) :
  cast_row pd dt r = Returned c ->
  (forall ms, Compact.index c = Some ms -> Pruned.open_time r = Some ms) /\
  (forall ms, Pruned.open_time r = Some ms -> - 2 ^ 63 < ms ->
     Compact.index c = Some ms) /\
  float_columns (fun x y => y = astype_float32 x) r c.
Proof.
  unfold cast_row, astype_row.
  destruct (to_datetime_ms pd (Pruned.open_time r)) as [t|] eqn:Et;
    [|discriminate].
  cbn [bind].
  destruct (astype_uint16 pd dt (Pruned.number_of_trades r)) as [n|];
    [|discriminate].
  cbn [bind]. intro H. injection H as <-.
  cbn [Compact.index].
  assert (Ht : forall ms, Pruned.open_time r = Some ms ->
            (t = NaT /\ ms = - 2 ^ 63) \/ t = Some ms).
  { intros ms E. rewrite E in Et. apply (to_datetime_ms_Returned pd), Et. }
  split; [|split].
  - intros ms E. subst t.
    destruct (Pruned.open_time r) as [ms'|] eqn:Eo; [|discriminate Et].
    destruct (Ht ms' eq_refl) as [[H _] | H]; [discriminate H|].
    congruence.
  - intros ms E Hlo.
    destruct (Ht ms E) as [[_ H] | H]; [lia | exact H].
  - repeat split.
Qed.

Lemma Forall2_chain {A B} (Q : A -> B -> Prop) (R1 : A -> A -> Prop)
    (R2 : B -> B -> Prop) :
  (forall a b a' b', Q a a' -> Q b b' -> R1 a b -> R2 a' b') ->
  forall l1 l2, Forall2 Q l1 l2 -> chain R1 l1 -> chain R2 l2.
Proof.
  intros HQ l1 l2 H.
  induction H as [|a a' l1 l2 Ha Hl IH]; intro Hc; [exact I|].
  destruct Hl as [|b b' l1 l2 Hb Hl]; [exact I|].
  destruct Hc as [Hab Hc]. split; [exact (HQ _ _ _ _ Ha Hb Hab)|].
  apply IH. exact Hc.
Qed.

End CompactCast.

(** X12.  When the compact cast returns, each price and volume cell of the
    result is missing exactly when the cell it comes from is missing, and
    has the sign of that cell: rounding to binary32 may reach zero or an
    infinity, never NaN and never the other sign. *)
Theorem compact_cast_keeps_missing_cells_and_signs
    (pd : Pandas) (dt : dtype) (df : list Pruned.row) (out : list Compact.row) :
  set_dtypes_compressed pd dt df = Returned out ->
  Forall2 (float_columns (fun x y =>
             isna_float y = isna_float x /\ sign_of y = sign_of x)) df out.
Proof.
  intro H. apply set_dtypes_compressed_rows in H.
  revert H. apply Forall2_impl.
  intros r c Hc. destruct (cast_row_fields pd dt r c Hc) as (_ & _ & Hf).
  unfold float_columns in *.
  destruct Hf as (-> & -> & -> & -> & -> & -> & -> & ->).
  repeat split;
    rewrite ?isna_float_sign, ?astype_float32_sign; reflexivity.
Qed.

Lemma compact_cast_keeps_missing_cells_and_signs_witness :
  exists out,
    set_dtypes_compressed nanosecond_pandas int64
      [drop_columns (csv_row 0 59999 7 S754_nan)]
      = Returned out /\
    Forall2 (float_columns (fun x y =>
               isna_float y = isna_float x /\ sign_of y = sign_of x))
      [drop_columns (csv_row 0 59999 7 S754_nan)] out.
Proof.
  eexists. split; [reflexivity|].
  apply (compact_cast_keeps_missing_cells_and_signs nanosecond_pandas int64).
  reflexivity.
Defined.



Section Pipeline.

Context (pd : Pandas) (dt : dtype).

Lemma records_of_cast_rows (l : DataFrame) :
  forall cs,
    Forall2 (fun p c => cast_row pd dt p = Returned c) (map drop_columns l) cs ->
    Forall2 (fun r rec => exists c,
               cast_row pd dt (drop_columns r) = Returned c /\
               rec = to_record c)
      l (map to_record cs).
Proof.
  induction l as [|r l IH]; intros cs H;
    inversion H as [|? c ? cs' Hc Hcs]; subst; constructor.
  - exists c. auto.
  - apply IH. exact Hcs.
Qed.

Lemma record_datetime (r : Csv.row) (c : Compact.row) (t : Z) :
  cast_row pd dt (drop_columns r) = Returned c ->
  Csv.open_time r = Some t ->
  - 2 ^ 63 < t ->
  datetime (to_record c) = Some t.
Proof.
  intros Hc Ho Ht.
  destruct (cast_row_fields _ _ _ _ Hc) as (_ & H & _).
  apply (H t Ho Ht).
Qed.

End Pipeline.

(** X14.  When the rows that line 120 keeps open a positive whole number of
    minutes one after the other and the pipeline returns, any two
    neighbouring records it writes are exactly one minute apart. *)
Theorem pipeline_output_has_no_holes (pd : Pandas) (df : Frame)
    (out : list candle) :
  write_raw_to_parquet pd df = Returned out ->
  (forall a b, consecutive (kept df) a b -> opens_whole_minutes_after a b) ->
  forall a b, consecutive out a b -> one_minute_apart a b.
Proof.
  rewrite write_raw_to_parquet_filter. intros Hout Hin.
  destruct (set_dtypes_compressed _ _ _) as [cs|e] eqn:Ecs;
    [|discriminate Hout].
  cbn [bind] in Hout. injection Hout as <-.
  apply set_dtypes_compressed_rows, records_of_cast_rows in Ecs.
  apply (chain_consecutive opens_whole_minutes_after) in Hin.
  assert (Hc : chain whole_minutes_apart (map to_record cs)).
  { apply (Forall2_chain _ opens_whole_minutes_after whole_minutes_apart)
      with (l1 := kept df) (3 := Hin) (2 := Ecs).
    intros r1 r2 a' b' (c1 & Hc1 & ->) (c2 & Hc2 & ->)
           (t & k & H1 & H2 & Hk & Ht).
    exists t, k. repeat split; [| |exact Hk].
    - apply (record_datetime _ _ r1 c1 t Hc1 H1 Ht).
    - apply (record_datetime _ _ r2 c2 _ Hc2 H2). unfold minute. lia. }
  rewrite addMissingMinutes_scan.
  destruct (map to_record cs) as [|p l].
  - intros a b ([|? ?] & ? & E); discriminate E.
  - apply (chain_consecutive one_minute_apart (p :: scan (Some p) l)).
    apply (scan_contiguous l p Hc).
Qed.

Lemma pipeline_output_has_no_holes_witness :
  exists out,
    write_raw_to_parquet nanosecond_pandas
      (int64_frame [csv_row 0 59999 5 (quote 3 0);
                    csv_row 0 50000 3 (quote 9 0);
                    csv_row 180000 239999 2 (quote 7 0)]) = Returned out /\
    forall a b, consecutive out a b -> one_minute_apart a b.
Proof.
  eexists. split; [reflexivity|].
  apply (pipeline_output_has_no_holes nanosecond_pandas
           (int64_frame [csv_row 0 59999 5 (quote 3 0);
                         csv_row 0 50000 3 (quote 9 0);
                         csv_row 180000 239999 2 (quote 7 0)]));
    [reflexivity|].
  apply (chain_consecutive opens_whole_minutes_after). split; [|exact I].
  exists 0, 3. repeat split; lia.
Defined.

(** ** Properties of the batch conversion *)

Section Paths.

Local Open Scope string_scope.

Lemma append_assoc (a b c : string) : (a ++ b) ++ c = a ++ (b ++ c).
Proof. induction a as [|x a IH]; simpl; [|rewrite IH]; reflexivity. Qed.

Lemma append_cancel_l (a b c : string) : a ++ b = a ++ c -> b = c.
Proof.
  induction a as [|x a IH]; simpl; intro H; [exact H|].
  injection H as H. apply IH, H.
Qed.

Lemma prefix_append (p s : string) :
  String.prefix p s = true <-> exists rest, s = p ++ rest.
Proof.
  revert s. induction p as [|a p IH]; intro s.
  - destruct s; simpl; split; intro; try reflexivity; eexists; reflexivity.
  - destruct s as [|b s]; simpl.
    + split; [discriminate | intros [rest H]; discriminate H].
    + destruct (ascii_dec a b) as [<- | Hab].
      * rewrite IH. split; intros [rest H]; exists rest; congruence.
      * split; [discriminate | intros [rest H]; congruence].
Qed.

Lemma endswith_append (suffix s : string) :
  endswith s suffix = true <-> exists stem, s = stem ++ suffix.
Proof.
  induction s as [|c s IH]; cbn [endswith].
  - destruct (String.eqb_spec "" suffix) as [<- | Hne].
    + split; [exists ""; reflexivity | reflexivity].
    + split; [discriminate|].
      intros [[|x stem] H]; simpl in H; [congruence | discriminate H].
  - destruct (String.eqb_spec (String c s) suffix) as [<- | Hne].
    + split; [exists ""; reflexivity | reflexivity].
    + rewrite IH. split.
      * intros [stem ->]. exists (String c stem). reflexivity.
      * intros [[|x stem] H]; simpl in H; [congruence|].
        injection H as _ ->. exists stem. reflexivity.
Qed.

(** An occurrence of [.csv] cannot begin in [stem] and end in a text that
    begins with a dot: the two parts are replaced separately. *)
Lemma replace_before_dot (t stem : string) :
  forall skip,
    (skip <= String.length stem)%nat ->
    replace_from skip (stem ++ String "." t) =
    replace_from skip stem ++ replace_from 0 (String "." t).
Proof.
  induction stem as [|c stem IH]; intros skip Hs.
  - simpl in Hs. assert (skip = 0%nat) as -> by lia. reflexivity.
  - destruct skip as [|k].
    2: { cbn [String.append replace_from]. apply IH. simpl in Hs. lia. }
    change (String c stem ++ String "." t)
      with (String c (stem ++ String "." t)).
    cbn [replace_from].
    destruct (String.prefix ".csv" (String c stem)) eqn:E.
    + apply prefix_append in E. destruct E as [rest E].
      assert (E2 : String.prefix ".csv" (String c (stem ++ String "." t))
                   = true).
      { apply prefix_append. exists (rest ++ String "." t).
        change (String c (stem ++ String "." t))
          with (String c stem ++ String "." t).
        rewrite E. apply append_assoc. }
      rewrite E2.
      assert (3 <= String.length stem)%nat
        by (injection E as _ ->; simpl; lia).
      rewrite IH by assumption. symmetry. apply append_assoc.
    + replace (String.prefix ".csv" (String c (stem ++ String "." t)))
        with false.
      * rewrite IH by lia. reflexivity.
      * symmetry.
        destruct (String.prefix ".csv" (String c (stem ++ String "." t)))
          eqn:E'; [|reflexivity].
        apply prefix_append in E'. destruct E' as [rest E'].
        injection E' as -> E'.
        destruct stem as [|c1 [|c2 [|c3 stem]]]; simpl in E';
          try discriminate E'.
        injection E' as -> -> -> _.
        assert (String.prefix ".csv" (".csv" ++ stem) = true)
          by (apply prefix_append; exists stem; reflexivity).
        simpl String.append in *. congruence.
Qed.

Lemma replace_clean (s : string) :
  ~ occurs ".csv" s -> replace_csv_parquet s = s.
Proof.
  unfold replace_csv_parquet.
  induction s as [|c s IH]; intro H; [reflexivity|].
  cbn [replace_from].
  destruct (String.prefix ".csv" (String c s)) eqn:E.
  - exfalso. apply H. apply prefix_append in E. destruct E as [rest E].
    exists "", rest. exact E.
  - rewrite IH; [reflexivity|].
    intros (before & after & ->). apply H.
    exists (String c before), after. reflexivity.
Qed.

Lemma compress_loop_log (pd : Pandas) (listing : list (string * Frame)) :
  forall written,
    compress_loop pd listing written =
    (fst (compress_loop pd listing []),
     (written ++ snd (compress_loop pd listing []))%list).
Proof.
  induction listing as [|[filename df] listing IH]; intro written.
  - simpl. rewrite app_nil_r. reflexivity.
  - cbn [compress_loop].
    destruct (endswith filename ".csv"); [|apply IH].
    destruct (write_raw_to_parquet pd df) as [content|e].
    + rewrite IH. rewrite (IH ([] ++ _)%list). cbn [fst snd].
      rewrite <- app_assoc. reflexivity.
    + simpl. rewrite app_nil_r. reflexivity.
Qed.

End Paths.

(** X15.  For a file name that ends in [.csv], the path [compress_data]
    writes to is [compressed/], the part of the name before the final
    [.csv] with every [.csv] in it replaced too, and [.parquet]; it ends in
    [.parquet].  When [.csv] occurs nowhere else in the name, only the
    extension changes. *)
Theorem parquet_path_of_csv_name (filename : string) :
  endswith filename ".csv" = true ->
  exists stem,
    filename = String.append stem ".csv" /\
    new_full_path filename =
      String.append "compressed/"
        (String.append (replace_csv_parquet stem) ".parquet") /\
    endswith (new_full_path filename) ".parquet" = true /\
    (~ occurs ".csv" stem ->
     new_full_path filename =
       String.append "compressed/" (String.append stem ".parquet")).
Proof.
  intro H. apply endswith_append in H. destruct H as [stem ->].
  exists stem. split; [reflexivity|].
  assert (E : new_full_path (String.append stem ".csv") =
              String.append "compressed/"
                (String.append (replace_csv_parquet stem) ".parquet")).
  { unfold new_full_path, replace_csv_parquet.
    rewrite (replace_before_dot "csv" stem 0) by lia. reflexivity. }
  rewrite E. split; [reflexivity|]. split.
  - apply endswith_append.
    exists (String.append "compressed/" (replace_csv_parquet stem)).
    symmetry. apply append_assoc.
  - intro Hclean. rewrite (replace_clean stem Hclean). reflexivity.
Qed.

Lemma parquet_path_of_csv_name_witness :
  exists stem,
    "BTC-USDT.csv"%string = String.append stem ".csv" /\
    new_full_path "BTC-USDT.csv" =
      String.append "compressed/"
        (String.append (replace_csv_parquet stem) ".parquet") /\
    endswith (new_full_path "BTC-USDT.csv") ".parquet" = true /\
    (~ occurs ".csv" stem ->
     new_full_path "BTC-USDT.csv" =
       String.append "compressed/" (String.append stem ".parquet")).
Proof.
  apply (parquet_path_of_csv_name "BTC-USDT.csv"). reflexivity.
Defined.

(** X16.  For every [stem], the two different file names [stem.csv.csv]
    and [stem.parquet.csv] are both converted, and to the same path: when a
    listing holds both and both conversions return, the second [to_parquet]
    writes over the first. *)
Theorem two_csv_names_one_parquet_path (pd : Pandas) (stem : string)
    (df1 df2 : Frame) (c1 c2 : list candle) :
  write_raw_to_parquet pd df1 = Returned c1 ->
  write_raw_to_parquet pd df2 = Returned c2 ->
  let a := String.append stem ".csv.csv" in
  let b := String.append stem ".parquet.csv" in
  let path := String.append "compressed/"
                (String.append (replace_csv_parquet stem) ".parquet.parquet") in
  a <> b /\
  compress_data pd [(a, df1); (b, df2)] =
    (Returned tt, [(path, c1); (path, c2)]).
Proof.
  intros H1 H2 a b path. split.
  - unfold a, b. intro E. apply append_cancel_l in E. discriminate E.
  - assert (Ea : endswith a ".csv" = true).
    { apply endswith_append. exists (String.append stem ".csv").
      unfold a. rewrite append_assoc. reflexivity. }
    assert (Eb : endswith b ".csv" = true).
    { apply endswith_append. exists (String.append stem ".parquet").
      unfold b. rewrite append_assoc. reflexivity. }
    assert (Pa : new_full_path a = path).
    { unfold new_full_path, replace_csv_parquet, a, path.
      rewrite (replace_before_dot "csv.csv" stem 0) by lia. reflexivity. }
    assert (Pb : new_full_path b = path).
    { unfold new_full_path, replace_csv_parquet, b, path.
      rewrite (replace_before_dot "parquet.csv" stem 0) by lia. reflexivity. }
    unfold compress_data. cbn [compress_loop].
    rewrite Ea, Eb, H1, H2, Pa, Pb. reflexivity.
Qed.

Lemma two_csv_names_one_parquet_path_witness :
  compress_data nanosecond_pandas
    [("x.csv.csv"%string, int64_frame [csv_row 0 59999 5 (quote 3 0)]);
     ("x.parquet.csv"%string, int64_frame [])] =
    (Returned tt,
     [("compressed/x.parquet.parquet"%string,
       addMissingMinutesDf
         [{| Compact.index := Some 0;
             Compact.open := astype_float32 (quote 3 (-1));
             Compact.high := astype_float32 (quote 7 (-2));
             Compact.low := astype_float32 (quote 5 (-2));
             Compact.close := astype_float32 (quote 3 0);
             Compact.volume := astype_float32 (quote 5 1);
             Compact.quote_asset_volume := astype_float32 (quote 15 0);
             Compact.number_of_trades := 5;
             Compact.taker_buy_base_asset_volume := astype_float32 (quote 1 1);
             Compact.taker_buy_quote_asset_volume := astype_float32 (quote 3 0)
          |}]);
      ("compressed/x.parquet.parquet"%string, [])]).
Proof.
  apply (two_csv_names_one_parquet_path nanosecond_pandas "x"
           (int64_frame [csv_row 0 59999 5 (quote 3 0)]) (int64_frame []));
    reflexivity.
Defined.

(** X17.  One file whose conversion raises ends the whole batch with that
    exception: the files listed before it have been written, exactly as if
    the listing had stopped there, and nothing listed after it is written. *)
Theorem batch_stops_at_first_failure (pd : Pandas)
    (pre post : list (string * Frame)) (filename : string)
    (df : Frame) (e : exn) :
  fst (compress_data pd pre) = Returned tt ->
  endswith filename ".csv" = true ->
  write_raw_to_parquet pd df = Raised e ->
  compress_data pd (pre ++ (filename, df) :: post) =
    (Raised e, snd (compress_data pd pre)).
Proof.
  unfold compress_data. intros Hpre Hcsv Hdf.
  generalize (@nil (string * list candle)).
  induction pre as [|[name d] pre IH]; intro written.
  - cbn [app compress_loop]. rewrite Hcsv, Hdf. reflexivity.
  - cbn [app compress_loop] in Hpre |- *.
    destruct (endswith name ".csv").
    + destruct (write_raw_to_parquet pd d) as [content|e'];
        [|discriminate Hpre].
      rewrite compress_loop_log in Hpre. cbn [fst] in Hpre.
      apply IH. exact Hpre.
    + apply IH. exact Hpre.
Qed.

(** X17, on a listing whose second file has a row without a trade count. *)
Lemma batch_stops_at_first_failure_witness :
  compress_data nanosecond_pandas
    ([("a.csv"%string, int64_frame [csv_row 0 59999 5 (quote 3 0)])] ++
     ("b.csv"%string,
      float64_trades_frame [csv_row_without_trades 0 59999 (quote 3 0)]) ::
     [("c.csv"%string, int64_frame [csv_row 0 59999 5 (quote 3 0)])]) =
    (Raised IntCastingNaNError,
     snd (compress_data nanosecond_pandas
            [("a.csv"%string, int64_frame [csv_row 0 59999 5 (quote 3 0)])])).
Proof.
  apply (batch_stops_at_first_failure nanosecond_pandas
           [("a.csv"%string, int64_frame [csv_row 0 59999 5 (quote 3 0)])]
           [("c.csv"%string, int64_frame [csv_row 0 59999 5 (quote 3 0)])]);
    reflexivity.
Defined.

(** X18.  When the conversion of every listed [.csv] file returns, the
    batch returns, and it has called [to_parquet] once for each [.csv] file,
    in listing order, on that file's path with that file's converted frame;
    files with another ending are neither read nor written. *)
Theorem batch_writes_each_csv_once (pd : Pandas)
    (listing : list (string * Frame)) :
  (forall entry, In entry listing -> is_csv entry = true ->
     exists content, write_raw_to_parquet pd (snd entry) = Returned content) ->
  fst (compress_data pd listing) = Returned tt /\
  Forall2 (fun entry w =>
             fst w = new_full_path (fst entry) /\
             write_raw_to_parquet pd (snd entry) = Returned (snd w))
    (filter is_csv listing) (snd (compress_data pd listing)).
Proof.
  unfold compress_data.
  induction listing as [|[filename df] listing IH]; intro H.
  - split; [reflexivity | constructor].
  - assert (Hl : forall entry, In entry listing -> is_csv entry = true ->
              exists content,
                write_raw_to_parquet pd (snd entry) = Returned content)
      by (intros entry Hin; apply H; right; exact Hin).
    destruct (IH Hl) as [IH1 IH2].
    cbn [compress_loop filter]. unfold is_csv at 1. cbn [fst].
    destruct (endswith filename ".csv") eqn:E; [|auto].
    destruct (H (filename, df) (or_introl eq_refl) E) as [content Hc].
    cbn [snd] in Hc. rewrite Hc, compress_loop_log. cbn [fst snd app].
    split; [exact IH1|]. constructor; [|exact IH2].
    cbn [fst snd]. auto.
Qed.

Lemma batch_writes_each_csv_once_witness :
  fst (compress_data nanosecond_pandas
         [("a.csv"%string, int64_frame [csv_row 0 59999 5 (quote 3 0)]);
          ("notes.txt"%string, float64_frame [blank_row])]) = Returned tt.
Proof.
  apply (batch_writes_each_csv_once nanosecond_pandas
           [("a.csv"%string, int64_frame [csv_row 0 59999 5 (quote 3 0)]);
            ("notes.txt"%string, float64_frame [blank_row])]).
  intros entry [<- | [<- | []]] E; [|discriminate E].
  eexists. reflexivity.
Defined.

Lemma quick_clean_fixes_sound_frames_witness :
  quick_clean [csv_row 0 59999 5 (quote 3 0);
               csv_row 60000 119999 2 (quote 7 0)]
  = Returned [csv_row 0 59999 5 (quote 3 0);
              csv_row 60000 119999 2 (quote 7 0)].
Proof.
  apply (proj2 (quick_clean_fixes_sound_frames _)). reflexivity.
Defined.
